(** * Move-selection strategies of the lichess bot ([strategies.py])

    A shallow embedding of the four engines of [strategies.py]
    ([RandomMove], [Alphabetical], [FirstMove] and [LlamaEngine]) and the
    properties of their [search] methods.

    - Python values are an inductive type [value]; the built-ins the source
      applies to them ([dict.get], truth testing, [len], [str.join],
      [str.strip], f-string formatting of integers) are functions on it and
      raise the exception Python raises.
    - The chess library, the HTTP transport and the JSON decoder are outside
      the module: they are parameters ([ChessLib], [Env]).  [Startpos] is
      python-chess on the starting position and [Example] a game and an
      endpoint, for running the strategies.
    - [LlamaEngine.search] has effects (one HTTP request, chat messages): it
      lives in an error monad that also records the trace of effects, and the
      trace is kept when an exception is raised. *)

From Stdlib Require Import ZArith NArith List String Ascii Bool Lia.
From Stdlib Require Import DecimalString DecimalZ DecimalPos SpecFloat.
Import ListNotations.
Local Open Scope string_scope.

(** ** Python values and exceptions *)

(** The exception classes that can leave a [search] method. *)
Inductive exn : Type :=
| IndexError
| TypeError
| AttributeError
| JSONDecodeError
| HTTPError
| Timeout
| ConnectionError
| InvalidMoveError
| IllegalMoveError
| AmbiguousMoveError.

(** What [json.loads] can return: [None], [bool], [int], [float], [str],
    [list] and [dict].  A [dict] keeps its insertion order; its keys are
    distinct. *)
#[warnings="-register-all"]
Inductive value : Type :=
| VNone
| VBool (b : bool)
| VInt (z : Z)
| VFloat (f : spec_float)
| VStr (s : string)
| VList (l : list value)
| VDict (d : list (string * value)).

(** A result or a raised exception. *)
Definition result (A : Type) : Type := (exn + A)%type.

Definition dquote : string := String (ascii_of_nat 34) EmptyString.
Definition newline : string := String (ascii_of_nat 10) EmptyString.

(** *** Strings

    A Python [str] is a sequence of code points; it is held here as its
    UTF-8 bytes.  Comparing the bytes lexicographically ([String.leb])
    orders strings as Python does, by code point. *)

Definition is_continuation (c : ascii) : bool :=
  let n := N_of_ascii c in ((128 <=? n) && (n <? 192))%N.

(** The characters of a [str], one string per code point: a byte joins the
    character that follows it when that one starts with a continuation
    byte. *)
Fixpoint chars (s : string) : list string :=
  match s with
  | EmptyString => []
  | String c s' =>
      let tail := chars s' in
      match s', tail with
      | String c' _, ch :: rest =>
          if is_continuation c' then String c ch :: rest
          else String c EmptyString :: tail
      | _, _ => String c EmptyString :: tail
      end
  end.

(** The code point a character's UTF-8 bytes encode. *)
Definition lead_bits (c : ascii) : N :=
  let n := N_of_ascii c in
  if (n <? 128)%N then n
  else if (n <? 224)%N then N.land n 31
  else if (n <? 240)%N then N.land n 15
  else N.land n 7.

Fixpoint continuation_bits (acc : N) (s : string) : N :=
  match s with
  | EmptyString => acc
  | String c s' =>
      continuation_bits (N.lor (N.shiftl acc 6) (N.land (N_of_ascii c) 63)) s'
  end.

Definition code_point (ch : string) : N :=
  match ch with
  | EmptyString => 0%N
  | String c s => continuation_bits (lead_bits c) s
  end.

(** [str.isspace] on one character. *)
Definition isspace (ch : string) : bool :=
  let n := code_point ch in
  (((9 <=? n) && (n <=? 13)) || ((28 <=? n) && (n <=? 32))
   || (n =? 133) || (n =? 160) || (n =? 5760)
   || ((8192 <=? n) && (n <=? 8202))
   || (n =? 8232) || (n =? 8233) || (n =? 8239) || (n =? 8287)
   || (n =? 12288))%N.

Fixpoint lstrip_chars (l : list string) : list string :=
  match l with
  | [] => []
  | ch :: l' => if isspace ch then lstrip_chars l' else l
  end.

(** [s.strip()]: whitespace removed at both ends. *)
Definition strip (s : string) : string :=
  String.concat "" (rev (lstrip_chars (rev (lstrip_chars (chars s))))).

(** [str(n)] for an [int], as an f-string renders it. *)
Definition str_of_int (z : Z) : string :=
  NilZero.string_of_int (Z.to_int z).

(** *** Built-ins on values *)

(** Truth value testing ([if v:]). *)
Definition truthy (v : value) : bool :=
  match v with
  | VNone => false
  | VBool b => b
  | VInt z => negb (z =? 0)%Z
  | VFloat f => match f with S754_zero _ => false | _ => true end
  | VStr s => negb (s =? "")
  | VList l => match l with [] => false | _ => true end
  | VDict d => match d with [] => false | _ => true end
  end.

Fixpoint assoc (k : string) (d : list (string * value)) : option value :=
  match d with
  | [] => None
  | (k', v) :: d' => if k' =? k then Some v else assoc k d'
  end.

(** [v.get(k, None)]: only a [dict] has the method. *)
Definition get (v : value) (k : string) : result value :=
  match v with
  | VDict d => inr (match assoc k d with Some x => x | None => VNone end)
  | _ => inl AttributeError
  end.

(** [len(v)]. *)
Definition len (v : value) : result nat :=
  match v with
  | VStr s => inr (List.length (chars s))
  | VList l => inr (List.length l)
  | VDict d => inr (List.length d)
  | _ => inl TypeError
  end.

(** The items of an iterable when all of them are [str]. *)
Fixpoint strs (l : list value) : result (list string) :=
  match l with
  | [] => inr []
  | VStr s :: l' =>
      match strs l' with
      | inr ss => inr (s :: ss)
      | inl e => inl e
      end
  | _ :: _ => inl TypeError
  end.

(** [sep.join(v)]: [v] is iterated (a [dict] by its keys, a [str] by its
    characters) and every item has to be a [str]. *)
Definition join (sep : string) (v : value) : result string :=
  match v with
  | VList l =>
      match strs l with
      | inr ss => inr (String.concat sep ss)
      | inl e => inl e
      end
  | VStr s => inr (String.concat sep (chars s))
  | VDict d => inr (String.concat sep (map fst d))
  | _ => inl TypeError
  end.

(** The message of the f-string
    [f"[Move {move_count}] tried {len(illegal_moves)} illegal
    move{'s' if len(illegal_moves) > 1 else ''}:  {', '.join(illegal_moves)}"];
    its replacement fields are evaluated from left to right. *)
Definition illegal_moves_message (move_count : Z) (illegal_moves : value)
  : result string :=
  match len illegal_moves with
  | inl e => inl e
  | inr n =>
      match join ", " illegal_moves with
      | inl e => inl e
      | inr joined =>
          inr ("[Move " ++ str_of_int move_count ++ "] tried "
               ++ str_of_int (Z.of_nat n) ++ " illegal move"
               ++ (if Nat.ltb 1 n then "s" else "") ++ ":  " ++ joined)
      end
  end.

(** *** [list.sort(key=...)] and [random.choice]

    [list.sort] is stable: items with equal keys keep their order.  The
    keys here are [str], compared by [String.leb]. *)
Section Sort.
Context {A : Type} (key : A -> string).

Fixpoint insert (x : A) (l : list A) : list A :=
  match l with
  | [] => [x]
  | y :: l' => if (key x <=? key y) then x :: l else y :: insert x l'
  end.

Fixpoint sort (l : list A) : list A :=
  match l with
  | [] => []
  | x :: l' => insert x (sort l')
  end.

End Sort.

(** [l[0]]. *)
Definition first {A : Type} (l : list A) : result A :=
  match l with
  | [] => inl IndexError
  | x :: _ => inr x
  end.

(** [random.choice(l)] is [l[randbelow(len(l))]] and raises [IndexError] on
    an empty list; [randbelow] is the generator's draw. *)
Definition choice {A : Type} (randbelow : nat -> nat) (l : list A) : result A :=
  match l with
  | [] => inl IndexError
  | _ :: _ =>
      match nth_error l (randbelow (List.length l)) with
      | Some x => inr x
      | None => inl IndexError
      end
  end.

(** ** The chess library

    What the strategies use of python-chess, as an interface:
    [list(board.legal_moves)], [board.san(move)], [str(move)] (the UCI
    notation), [board.parse_san(san)] with the exception it raises
    ([InvalidMoveError] when the notation is not syntactically valid,
    [IllegalMoveError] when it matches no legal move, [AmbiguousMoveError]
    when it matches several), [board.fullmove_number] and
    [str(Game.from_board(board).mainline_moves())]. *)
Record ChessLib : Type := {
  Board : Type;
  Move : Type;
  legal_moves : Board -> list Move;
  san : Board -> Move -> string;
  uci : Move -> string;
  parse_san : Board -> string -> result Move;
  fullmove_number : Board -> Z;
  mainline_moves : Board -> string
}.

Arguments legal_moves {_} _.
Arguments san {_} _ _.
Arguments uci {_} _.
Arguments parse_san {_} _ _.
Arguments fullmove_number {_} _.
Arguments mainline_moves {_} _.

(** [chess.engine.PlayResult(move, ponder, draw_offered=False,
    resigned=False)]; its [info] dictionary, which the strategies never
    set, is left out. *)
Record PlayResult (M : Type) : Type := mkPlayResult {
  move : option M;
  ponder : option M;
  draw_offered : bool;
  resigned : bool
}.

Arguments mkPlayResult {M} _ _ _ _.
Arguments move {M} _.
Arguments ponder {M} _.
Arguments draw_offered {M} _.
Arguments resigned {M} _.

(** ** The local strategies *)

Module RandomMove.

(** [PlayResult(random.choice(list(board.legal_moves)), None)]. *)
Definition search {L : ChessLib} (randbelow : nat -> nat) (board : Board L)
  : result (PlayResult (Move L)) :=
  match choice randbelow (legal_moves board) with
  | inl e => inl e
  | inr m => inr (mkPlayResult (Some m) None false false)
  end.

End RandomMove.

Module Alphabetical.

(** [moves.sort(key=board.san)], then [PlayResult(moves[0], None)]. *)
Definition search {L : ChessLib} (board : Board L)
  : result (PlayResult (Move L)) :=
  let moves := legal_moves board in
  let moves := sort (san board) moves in
  match first moves with
  | inl e => inl e
  | inr m => inr (mkPlayResult (Some m) None false false)
  end.

End Alphabetical.

Module FirstMove.

(** [moves.sort(key=str)], then [PlayResult(moves[0], None)]. *)
Definition search {L : ChessLib} (board : Board L)
  : result (PlayResult (Move L)) :=
  let moves := legal_moves board in
  let moves := sort uci moves in
  match first moves with
  | inl e => inl e
  | inr m => inr (mkPlayResult (Some m) None false false)
  end.

End FirstMove.

(** ** The remote move resolver *)

(** The arguments of [requests.post(url, headers=..., json=..., timeout=...)]. *)
Record Request : Type := {
  url : string;
  headers : list (string * string);
  json : value;
  timeout : Z
}.

(** A [requests.Response]: its status code and what [response.json()]
    returns ([None] when the body is not JSON). *)
Record Response : Type := {
  status_code : Z;
  response_json : option value
}.

(** What the resolver does to the outside: the HTTP request and the chat
    messages of [conversation.send_message(room, message)]. *)
Inductive event : Type :=
| Post (r : Request)
| SendMessage (room message : string).

(** The outside of one invocation: how the endpoint answers a request
    ([requests.post] returns a response or raises) and what [json.loads]
    makes of a string ([None] when it is not JSON). *)
Record Env : Type := {
  requests_post : Request -> result Response;
  json_loads : string -> option value
}.

(** The module-level configuration read from the environment variables;
    the module asserts that both are set. *)
Record Config : Type := {
  RUNPOD_API_KEY : string;
  RUNPOD_RUNSYNC_ENDPOINT : string
}.

(** Modelled from the spec: [model.Game] and its players are not in the
    module.  A game gives both players' numeric ratings
    ([lichess_game.white.rating], [lichess_game.black.rating]) and the
    bot's colour as a string ([lichess_game.my_color]). *)
Record Player : Type := { rating : Z }.

Record Game : Type := {
  white : Player;
  black : Player;
  my_color : string
}.

(** *** Effects

    A computation yields a value or an exception, and the trace of the
    events it performed up to there. *)
Definition Eff (A : Type) : Type := (result A * list event)%type.

Definition ret {A : Type} (a : A) : Eff A := (inr a, []).

Definition raise {A : Type} (e : exn) : Eff A := (inl e, []).

Definition bind {A B : Type} (m : Eff A) (f : A -> Eff B) : Eff B :=
  match m with
  | (inl e, t) => (inl e, t)
  | (inr a, t) => let (r, t') := f a in (r, (t ++ t')%list)
  end.

Definition emit (ev : event) : Eff unit := (inr tt, [ev]).

Definition lift {A : Type} (r : result A) : Eff A := (r, []).

Declare Scope eff_scope.
Delimit Scope eff_scope with eff.
Notation "x <- m ;; k" := (bind m (fun x => k))
  (at level 61, m at next level, right associativity) : eff_scope.
Notation "m ;; k" := (bind m (fun _ => k))
  (at level 61, right associativity) : eff_scope.

(** The float literals [0.7] and [0.9] as the binary64 values Python reads
    them as. *)
Definition float_0_7 : spec_float := S754_finite false 6305039478318694 (-53).
Definition float_0_9 : spec_float := S754_finite false 8106479329266893 (-53).

Module LlamaEngine.

(** [requests.post(...)]: the request goes out, the endpoint answers. *)
Definition post (env : Env) (r : Request) : Eff Response :=
  (emit (Post r) ;; lift (requests_post env r))%eff.

(** [response.raise_for_status()] raises on a 4xx or 5xx status. *)
Definition raise_for_status (response : Response) : Eff unit :=
  if ((400 <=? status_code response) && (status_code response <? 600))%Z
  then raise HTTPError
  else ret tt.

(** [response.json()]. *)
Definition response_json_ (response : Response) : Eff value :=
  match response_json response with
  | Some v => ret v
  | None => raise JSONDecodeError
  end.

(** [json.loads(v)]: only a [str] is decoded. *)
Definition loads (env : Env) (v : value) : Eff value :=
  match v with
  | VStr s =>
      match json_loads env s with
      | Some v' => ret v'
      | None => raise JSONDecodeError
      end
  | _ => raise TypeError
  end.

(** [conversation.send_message(room, message)].
    Modelled from the spec: [Conversation] is not in the module; a channel
    accepts a plain-text message. *)
Definition send_message (room message : string) : Eff unit :=
  emit (SendMessage room message).

(** [board.parse_san(v)]: python-chess matches [v] against a regular
    expression, which raises [TypeError] when [v] is not a [str]. *)
Definition board_parse_san {L : ChessLib} (board : Board L) (v : value)
  : Eff (Move L) :=
  match v with
  | VStr s => lift (parse_san board s)
  | _ => raise TypeError
  end.

(** The [pgn] of the request: the two rating tags, an empty line and the
    stripped main line. *)
Definition pgn_text {L : ChessLib} (lichess_game : Game) (board : Board L)
  : string :=
  let pgn := mainline_moves board in
  let white_elo := rating (white lichess_game) in
  let black_elo := rating (black lichess_game) in
  "[WhiteElo " ++ dquote ++ str_of_int white_elo ++ dquote ++ "]" ++ newline
  ++ "[BlackElo " ++ dquote ++ str_of_int black_elo ++ dquote ++ "]" ++ newline
  ++ newline ++ strip pgn.

(** The request data. *)
Definition request_data {L : ChessLib} (lichess_game : Game) (board : Board L)
  : value :=
  let pgn := pgn_text lichess_game board in
  let color := my_color lichess_game in
  let move_count := fullmove_number board in
  VDict [("input", VDict [
    ("pgn", VStr pgn);
    ("color", VStr color);
    ("move_count", VInt move_count);
    ("temperature", VFloat float_0_7);
    ("top_p", VFloat float_0_9);
    ("top_k", VInt 1000);
    ("num_beams", VInt 1);
    ("do_sample", VBool true);
    ("use_cache", VBool true)])].

(** The headers for the request. *)
Definition request_headers (cfg : Config) : list (string * string) :=
  [("Authorization", "Bearer " ++ RUNPOD_API_KEY cfg);
   ("Content-Type", "application/json")].

Definition request {L : ChessLib} (cfg : Config) (lichess_game : Game)
  (board : Board L) : Request :=
  {| url := RUNPOD_RUNSYNC_ENDPOINT cfg;
     headers := request_headers cfg;
     json := request_data lichess_game board;
     timeout := 300 |}.

(** [LlamaEngine.search(lichess_game, board, li)].  The two
    [logger.debug] calls write to the log only and are left out, and so is
    the construction of the [Conversation], which sends nothing. *)
Definition search {L : ChessLib} (cfg : Config) (env : Env)
  (lichess_game : Game) (board : Board L) : Eff (PlayResult (Move L)) :=
  (let move_count := fullmove_number board in
   response <- post env (request cfg lichess_game board) ;;
   raise_for_status response ;;
   result <- response_json_ response ;;
   result <- lift (get result "output") ;;
   result <- loads env result ;;
   move_str <- lift (get result "move") ;;
   illegal_moves <- lift (get result "illegal_moves") ;;
   resign <- lift (get result "resign") ;;
   (if truthy illegal_moves
    then
      illegal_moves_message <- lift (illegal_moves_message move_count illegal_moves) ;;
      send_message "player" illegal_moves_message ;;
      send_message "spectator" illegal_moves_message
    else ret tt) ;;
   if truthy resign
   then ret (mkPlayResult None None false true)
   else
     move <- board_parse_san board move_str ;;
     ret (mkPlayResult (Some move) None false false))%eff.

End LlamaEngine.

(** ** python-chess on the starting position

    One instance of [ChessLib], for running the strategies: the board
    [chess.Board()] with its twenty legal moves in the order python-chess
    generates them, and [parse_san] as python-chess decides it there. *)
Module Startpos.

Inductive board : Type := starting.

Inductive piece_type : Type := Pawn | Knight | Bishop | Rook | Queen | King.

Definition piece_type_eqb (p q : piece_type) : bool :=
  match p, q with
  | Pawn, Pawn | Knight, Knight | Bishop, Bishop
  | Rook, Rook | Queen, Queen | King, King => true
  | _, _ => false
  end.

(** Squares are numbered from a1 = 0 to h8 = 63, rank by rank. *)
Record move : Type := mkMove {
  from_square : nat;
  to_square : nat;
  promotion : option piece_type
}.

Definition promotion_eqb (p q : option piece_type) : bool :=
  match p, q with
  | None, None => true
  | Some a, Some b => piece_type_eqb a b
  | _, _ => false
  end.

Definition move_eqb (m n : move) : bool :=
  Nat.eqb (from_square m) (from_square n)
  && Nat.eqb (to_square m) (to_square n)
  && promotion_eqb (promotion m) (promotion n).

Definition FILE_NAMES : list string := ["a"; "b"; "c"; "d"; "e"; "f"; "g"; "h"].
Definition RANK_NAMES : list string := ["1"; "2"; "3"; "4"; "5"; "6"; "7"; "8"].

Definition square_name (sq : nat) : string :=
  nth (sq mod 8) FILE_NAMES "" ++ nth (sq / 8) RANK_NAMES "".

Definition piece_symbol (p : piece_type) : string :=
  match p with
  | Pawn => "p" | Knight => "n" | Bishop => "b"
  | Rook => "r" | Queen => "q" | King => "k"
  end.

Definition null : move := mkMove 0 0 None.

(** [Move.uci()]. *)
Definition uci (m : move) : string :=
  match promotion m with
  | Some p => square_name (from_square m) ++ square_name (to_square m)
              ++ piece_symbol p
  | None =>
      if move_eqb m null then "0000"
      else square_name (from_square m) ++ square_name (to_square m)
  end.

Definition mv (f t : nat) : move := mkMove f t None.

(** [list(chess.Board().legal_moves)]: g1h3, g1f3, b1c3, b1a3, the single
    pawn steps from h to a, the double pawn steps from h to a. *)
Definition legal : list move :=
  [mv 6 23; mv 6 21; mv 1 18; mv 1 16;
   mv 15 23; mv 14 22; mv 13 21; mv 12 20;
   mv 11 19; mv 10 18; mv 9 17; mv 8 16;
   mv 15 31; mv 14 30; mv 13 29; mv 12 28;
   mv 11 27; mv 10 26; mv 9 25; mv 8 24].

(** White's pieces, the side to move. *)
Definition own_piece_at (sq : nat) : option piece_type :=
  match sq with
  | 0 | 7 => Some Rook
  | 1 | 6 => Some Knight
  | 2 | 5 => Some Bishop
  | 3 => Some Queen
  | 4 => Some King
  | _ => if ((8 <=? sq) && (sq <? 16))%nat then Some Pawn else None
  end.

(** [board.pawns]: the pawns of both sides. *)
Definition pawn_at (sq : nat) : bool :=
  (((8 <=? sq) && (sq <? 16)) || ((48 <=? sq) && (sq <? 56)))%nat.

(** [board.san(m)] of a legal move of the starting position: a knight move
    or a pawn step, no capture and no check. *)
Definition san (m : move) : string :=
  match own_piece_at (from_square m) with
  | Some Knight => "N" ++ square_name (to_square m)
  | _ => square_name (to_square m)
  end.

(** *** [SAN_REGEX]

    [^([NBKRQ])?([a-h])?([1-8])?[\-x]?([a-h][1-8])(=?[nbrqkNBRQK])?[\+#]?\Z].
    The character classes of adjacent parts are disjoint, so a string has
    at most one decomposition; it is read off from both ends. *)
Record san_match : Type := {
  g_piece : option piece_type;
  g_from_file : option nat;
  g_from_rank : option nat;
  g_to_square : nat;
  g_promotion : option piece_type
}.

Definition piece_of_letter (c : ascii) : option piece_type :=
  match c with
  | "N" => Some Knight | "B" => Some Bishop | "K" => Some King
  | "R" => Some Rook | "Q" => Some Queen
  | _ => None
  end%char.

Definition promotion_of_letter (c : ascii) : option piece_type :=
  match c with
  | "n" | "N" => Some Knight | "b" | "B" => Some Bishop
  | "r" | "R" => Some Rook | "q" | "Q" => Some Queen
  | "k" | "K" => Some King
  | _ => None
  end%char.

Definition file_of_letter (c : ascii) : option nat :=
  let n := nat_of_ascii c in
  if ((97 <=? n) && (n <=? 104))%nat then Some (n - 97) else None.

Definition rank_of_digit (c : ascii) : option nat :=
  let n := nat_of_ascii c in
  if ((49 <=? n) && (n <=? 56))%nat then Some (n - 49) else None.

(** The end of the string, reversed: [[\+#]?] then [(=?[nbrqkNBRQK])?]. *)
Definition drop_suffix (r : list ascii) : list ascii :=
  match r with
  | ("+" :: r')%char | ("#" :: r')%char => r'
  | _ => r
  end.

Definition take_promotion (r : list ascii)
  : option piece_type * list ascii :=
  match r with
  | c :: r' =>
      match promotion_of_letter c with
      | Some p =>
          match r' with
          | ("=" :: r'')%char => (Some p, r'')
          | _ => (Some p, r')
          end
      | None => (None, r)
      end
  | [] => (None, r)
  end.

(** The start of the string: [([NBKRQ])?([a-h])?([1-8])?[\-x]?]. *)
Definition take_with {A : Type} (f : ascii -> option A) (l : list ascii)
  : option A * list ascii :=
  match l with
  | c :: l' => match f c with Some a => (Some a, l') | None => (None, l) end
  | [] => (None, l)
  end.

Definition drop_separator (l : list ascii) : list ascii :=
  match l with
  | ("-" :: l')%char | ("x" :: l')%char => l'
  | _ => l
  end.

Definition SAN_REGEX_match (s : string) : option san_match :=
  let r := drop_suffix (rev (list_ascii_of_string s)) in
  let (promo, r) := take_promotion r in
  match r with
  | d :: f :: r' =>
      match file_of_letter f, rank_of_digit d with
      | Some tf, Some tr =>
          let (piece, l) := take_with piece_of_letter (rev r') in
          let (ff, l) := take_with file_of_letter l in
          let (fr, l) := take_with rank_of_digit l in
          match drop_separator l with
          | [] => Some {| g_piece := piece; g_from_file := ff;
                          g_from_rank := fr; g_to_square := tr * 8 + tf;
                          g_promotion := promo |}
          | _ => None
          end
      | _, _ => None
      end
  | _ => None
  end.

Definition is_castling_san (s : string) : bool :=
  existsb (String.eqb s)
    ["O-O"; "O-O+"; "O-O#"; "0-0"; "0-0+"; "0-0#";
     "O-O-O"; "O-O-O+"; "O-O-O#"; "0-0-0"; "0-0-0+"; "0-0-0#"].

Definition is_null_san (s : string) : bool :=
  existsb (String.eqb s) ["--"; "Z0"; "0000"; "@@@@"].

Definition on_file (f : option nat) (sq : nat) : bool :=
  match f with Some x => Nat.eqb (sq mod 8) x | None => true end.

Definition on_rank (r : option nat) (sq : nat) : bool :=
  match r with Some x => Nat.eqb (sq / 8) x | None => true end.

Definition is_back_rank (sq : nat) : bool := ((sq <? 8) || (56 <=? sq))%nat.

(** [board.find_move(from_square, to_square, promotion)]. *)
Definition find_move (f t : nat) (promo : option piece_type) : result move :=
  let promo :=
    match promo with
    | None => if pawn_at f && is_back_rank t then Some Queen else None
    | Some _ => promo
    end in
  let m := mkMove f t promo in
  if existsb (move_eqb m) legal then inr m else inl IllegalMoveError.

(** [board.parse_san(s)].  The starting position has no castling move, so
    the castling notations are illegal there. *)
Definition parse_san (s : string) : result move :=
  if is_castling_san s then inl IllegalMoveError
  else
    match SAN_REGEX_match s with
    | None => if is_null_san s then inr null else inl InvalidMoveError
    | Some g =>
        let from_ok (sq : nat) : bool :=
          on_file (g_from_file g) sq && on_rank (g_from_rank g) sq in
        let matching (mask : nat -> bool) : result move :=
          match
            filter (fun m => mask (from_square m)
                             && Nat.eqb (to_square m) (g_to_square g)
                             && promotion_eqb (promotion m) (g_promotion g))
                   legal
          with
          | [] => inl IllegalMoveError
          | [m] => inr m
          | _ :: _ :: _ => inl AmbiguousMoveError
          end in
        match g_piece g, g_from_file g, g_from_rank g with
        | Some p, _, _ =>
            matching (fun sq =>
              from_ok sq &&
              match own_piece_at sq with
              | Some q => piece_type_eqb p q
              | None => false
              end)
        | None, Some ff, Some fr =>
            match find_move (fr * 8 + ff) (g_to_square g) (g_promotion g) with
            | inl e => inl e
            | inr m =>
                if promotion_eqb (promotion m) (g_promotion g) then inr m
                else inl IllegalMoveError
            end
        | None, ff, _ =>
            matching (fun sq =>
              from_ok sq && pawn_at sq &&
              match ff with
              | None => Nat.eqb (sq mod 8) (g_to_square g mod 8)
              | Some _ => true
              end)
        end
    end.

Definition lib : ChessLib :=
  Build_ChessLib board move
    (fun _ => legal) (fun _ => san) uci (fun _ => parse_san)
    (fun _ => 1%Z) (fun _ => "").

End Startpos.

(** ** A concrete game and endpoint

    For running the resolver: a configuration, a game, and an endpoint
    that answers every request with a given status and a given inner
    object. *)
Module Example.

Definition cfg : Config :=
  {| RUNPOD_API_KEY := "s3cr3t";
     RUNPOD_RUNSYNC_ENDPOINT := "https://api.runpod.ai/v2/deepllama/runsync" |}.

Definition game : Game :=
  {| white := {| rating := 1500 |};
     black := {| rating := 1623 |};
     my_color := "white" |}.

(** The JSON text of a value, as [json.dumps] writes it, for values without
    floats whose strings need no escaping. *)
Fixpoint dumps (v : value) : string :=
  match v with
  | VNone => "null"
  | VBool true => "true"
  | VBool false => "false"
  | VInt z => str_of_int z
  | VFloat _ => ""
  | VStr s => dquote ++ s ++ dquote
  | VList l => "[" ++ String.concat ", " (map dumps l) ++ "]"
  | VDict d =>
      "{" ++ String.concat ", "
               (map (fun kv => dquote ++ fst kv ++ dquote ++ ": "
                               ++ dumps (snd kv)) d)
      ++ "}"
  end.

(** The endpoint answers with status [status] and the body
    [{"output": payload}], where [payload] is the JSON text of [inner];
    [json.loads] decodes that text back to [inner] (no other string is
    decoded during a run). *)
Definition endpoint (status : Z) (inner : value) : Env :=
  {| requests_post := fun _ =>
       inr {| status_code := status;
              response_json := Some (VDict [("output", VStr (dumps inner))]) |};
     json_loads := fun s => if s =? dumps inner then Some inner else None |}.

(** An endpoint that cannot be reached in time. *)
Definition unreachable : Env :=
  {| requests_post := fun _ => inl Timeout;
     json_loads := fun _ => None |}.

End Example.

(** ** The module's configuration

    What runs when the module is imported: the two variables are read with
    [os.environ.get], which gives [None] for a variable that is not set,
    and the two assertions follow in this order. *)
Inductive imported (A : Type) : Type :=
| Imported (a : A)
| AssertionError (message : string).

Arguments Imported {A} _.
Arguments AssertionError {A} _.

Definition module_config (environ : string -> option string)
  : imported Config :=
  let RUNPOD_API_KEY := environ "RUNPOD_API_KEY" in
  let RUNPOD_RUNSYNC_ENDPOINT := environ "RUNPOD_RUNSYNC_ENDPOINT" in
  match RUNPOD_API_KEY with
  | None =>
      AssertionError "Please set the RUNPOD_API_KEY environment variable"
  | Some key =>
      match RUNPOD_RUNSYNC_ENDPOINT with
      | None =>
          AssertionError
            "Please set the RUNPOD_RUNSYNC_ENDPOINT environment variable"
      | Some endpoint => Imported (Build_Config key endpoint)
      end
  end.

(** ** Boards given by their moves

    A second instance of [ChessLib], for running the local strategies on
    an empty list of moves or on the same moves in another order: a board
    is the list of its legal moves, written as on the starting position. *)
Module Listed.

Definition lib : ChessLib :=
  Build_ChessLib (list Startpos.move) Startpos.move
    (fun moves => moves) (fun _ => Startpos.san) Startpos.uci
    (fun _ => Startpos.parse_san) (fun _ => 1%Z) (fun _ => "").

End Listed.

(** An environment with both variables set. *)
Definition example_environ (name : string) : option string :=
  if name =? "RUNPOD_API_KEY" then Some "s3cr3t"
  else if name =? "RUNPOD_RUNSYNC_ENDPOINT"
       then Some "https://api.runpod.ai/v2/deepllama/runsync"
       else None.

(** ** Vocabulary of the properties *)

Section Order.
Context {A : Type} (key : A -> string).

(** The key of [x] is not after the key of any item of [l]. *)
Definition least (x : A) (l : list A) : Prop :=
  forall y, In y l -> (key x <=? key y) = true.

(** Every item of [l] is least among the items that follow it. *)
Fixpoint ordered (l : list A) : Prop :=
  match l with
  | [] => True
  | x :: l' => least x l' /\ ordered l'
  end.

End Order.

(** [d.get(k, None)] on the items of a [dict]. *)
Definition field (d : list (string * value)) (k : string) : value :=
  match assoc k d with Some x => x | None => VNone end.

(** The endpoint answers request [r] with a response that passes
    [raise_for_status] and whose doubly encoded body decodes to the
    [dict] [d], the decoded inner object. *)
Inductive answers (env : Env) (r : Request) (d : list (string * value))
  : Prop :=
| Answers (response : Response) (outer : value) (payload : string) :
    requests_post env r = inr response ->
    ((400 <=? status_code response) && (status_code response <? 600))%Z
      = false ->
    response_json response = Some outer ->
    get outer "output" = inr (VStr payload) ->
    json_loads env payload = Some (VDict d) ->
    answers env r d.

(** [illegal_moves] as the inbound interface types it: absent (or null), or
    an array of strings. *)
Definition is_str (v : value) : bool :=
  match v with VStr _ => true | _ => false end.

Definition illegal_moves_typed (d : list (string * value)) : bool :=
  match field d "illegal_moves" with
  | VNone => true
  | VList l => forallb is_str l
  | _ => false
  end.

(** The decision the resolver takes once the diagnostics are out: the
    statements of [search] from [if resign:] on. *)
Definition decision {L : ChessLib} (board : Board L)
  (d : list (string * value)) : result (PlayResult (Move L)) :=
  if truthy (field d "resign")
  then inr (mkPlayResult None None false true)
  else
    match field d "move" with
    | VStr s =>
        match parse_san board s with
        | inl e => inl e
        | inr m => inr (mkPlayResult (Some m) None false false)
        end
    | _ => inl TypeError
    end.

(** A chess library with another SAN parser in the place of its own. *)
Definition with_parser (L : ChessLib)
  (p : Board L -> string -> result (Move L)) : ChessLib :=
  Build_ChessLib (Board L) (Move L) (@legal_moves L) (@san L) (@uci L) p
    (@fullmove_number L) (@mainline_moves L).

(** The text of the diagnostic for the list [l] of illegal moves. *)
Definition diagnostic (move_count : Z) (l : list string) : string :=
  "[Move " ++ str_of_int move_count ++ "] tried "
  ++ str_of_int (Z.of_nat (List.length l)) ++ " illegal move"
  ++ (if Nat.ltb 1 (List.length l) then "s" else "") ++ ":  "
  ++ String.concat ", " l.

(** [sub] occurs in [s]. *)
Definition contains (s sub : string) : Prop :=
  exists before after, s = before ++ sub ++ after.

(** The messages of a trace that went to [room]. *)
Definition messages_to (room : string) (t : list event) : list string :=
  flat_map (fun ev =>
    match ev with
    | SendMessage r m => if r =? room then [m] else []
    | Post _ => []
    end) t.

(** The requests of a trace. *)
Definition posts (t : list event) : list Request :=
  flat_map (fun ev =>
    match ev with Post r => [r] | SendMessage _ _ => [] end) t.

(** The spec's [ResponseFormatError], malformed or missing expected fields
    in the decoded response.  The module defines no exception of its own:
    a field that is missing or is not of its type surfaces as the
    [TypeError], [AttributeError] or [JSONDecodeError] of the operation
    that needed it. *)
Definition ResponseFormatError (e : exn) : bool :=
  match e with
  | TypeError | AttributeError | JSONDecodeError => true
  | _ => false
  end.

(** No string occurs twice in [l]. *)
Fixpoint distinct (l : list string) : bool :=
  match l with
  | [] => true
  | x :: l' => negb (existsb (String.eqb x) l') && distinct l'
  end.

(** [illegal_moves] is a value that is truthy and that [len] or
    [str.join] refuses: a number, [True], or a list with an item that is
    not a [str]. *)
Definition illegal_moves_malformed (v : value) : bool :=
  match v with
  | VBool b => b
  | VInt z => negb (z =? 0)%Z
  | VFloat f => truthy (VFloat f)
  | VList l => negb (forallb is_str l)
  | _ => false
  end.

Definition is_dict (v : value) : bool :=
  match v with VDict _ => true | _ => false end.

(** * Properties *)

(** ** The order on strings *)

Lemma ascii_compare_refl (c : ascii) : Ascii.compare c c = Eq.
Proof. unfold Ascii.compare. apply N.compare_refl. Qed.

Lemma string_compare_refl (s : string) : String.compare s s = Eq.
Proof.
  induction s as [|c s IH]; simpl; [reflexivity|].
  now rewrite ascii_compare_refl.
Qed.

Lemma leb_refl (s : string) : (s <=? s) = true.
Proof. unfold String.leb. now rewrite string_compare_refl. Qed.

Lemma string_compare_trans (c : comparison) (s1 s2 s3 : string) :
  String.compare s1 s2 = c -> String.compare s2 s3 = c ->
  String.compare s1 s3 = c.
Proof.
  revert s2 s3.
  induction s1 as [|a1 s1 IH]; intros [|a2 s2] [|a3 s3]; simpl;
    try congruence.
  unfold Ascii.compare.
  destruct (N.compare_spec (N_of_ascii a1) (N_of_ascii a2)) as [E12|L12|G12];
    destruct (N.compare_spec (N_of_ascii a2) (N_of_ascii a3)) as [E23|L23|G23];
    intros H1 H2; try congruence.
  - rewrite E12, E23, N.compare_refl. eauto.
  - rewrite E12. now rewrite (proj2 (N.compare_lt_iff _ _) L23).
  - rewrite E12. now rewrite (proj2 (N.compare_gt_iff _ _) G23).
  - rewrite <- E23. now rewrite (proj2 (N.compare_lt_iff _ _) L12).
  - now rewrite (proj2 (N.compare_lt_iff _ _) (N.lt_trans _ _ _ L12 L23)).
  - rewrite <- E23. now rewrite (proj2 (N.compare_gt_iff _ _) G12).
  - now rewrite (proj2 (N.compare_gt_iff _ _) (N.lt_trans _ _ _ G23 G12)).
Qed.

Lemma leb_trans (s1 s2 s3 : string) :
  (s1 <=? s2) = true -> (s2 <=? s3) = true -> (s1 <=? s3) = true.
Proof.
  unfold String.leb.
  destruct (String.compare s1 s2) eqn:E12; try discriminate;
    destruct (String.compare s2 s3) eqn:E23; try discriminate; intros _ _.
  - now rewrite (string_compare_trans Eq _ _ _ E12 E23).
  - apply String.compare_eq_iff in E12. subst. now rewrite E23.
  - apply String.compare_eq_iff in E23. subst. now rewrite E12.
  - now rewrite (string_compare_trans Lt _ _ _ E12 E23).
Qed.

(** ** Characters and [strip] *)

Lemma append_assoc (a b c : string) : (a ++ b) ++ c = a ++ b ++ c.
Proof. induction a as [|x a IH]; simpl; [reflexivity|]. now rewrite IH. Qed.

Lemma append_empty (a : string) : a ++ "" = a.
Proof. induction a as [|x a IH]; simpl; [reflexivity|]. now rewrite IH. Qed.

Lemma concat_empty_cons (x : string) (l : list string) :
  String.concat "" (x :: l) = x ++ String.concat "" l.
Proof. destruct l; simpl; [now rewrite append_empty|reflexivity]. Qed.

(** Splitting a string into its characters loses nothing. *)
Lemma concat_chars (s : string) : String.concat "" (chars s) = s.
Proof.
  induction s as [|c s IH]; [reflexivity|].
  cbn [chars]. destruct s as [|c' s'].
  - reflexivity.
  - destruct (chars (String c' s')) as [|ch rest].
    + discriminate IH.
    + destruct (is_continuation c');
        rewrite !concat_empty_cons in *; simpl; now rewrite IH.
Qed.

(** [strip] leaves a text alone that neither starts nor ends with
    whitespace. *)
Lemma strip_unchanged (s : string) :
  lstrip_chars (chars s) = chars s ->
  lstrip_chars (rev (chars s)) = rev (chars s) ->
  strip s = s.
Proof.
  intros Hl Hr. unfold strip.
  now rewrite Hl, Hr, rev_involutive, concat_chars.
Qed.

(** ** [list.sort(key=...)] *)

Section SortFacts.
Context {A : Type} (key : A -> string).

Lemma in_insert (x y : A) (l : list A) :
  In y (insert key x l) <-> y = x \/ In y l.
Proof.
  induction l as [|z l IH]; simpl.
  - intuition.
  - destruct (key x <=? key z); simpl; intuition.
Qed.

Lemma in_sort (y : A) (l : list A) : In y (sort key l) <-> In y l.
Proof.
  induction l as [|x l IH]; simpl; [tauto|].
  rewrite in_insert, IH. intuition.
Qed.

Lemma insert_ordered (x : A) (l : list A) :
  ordered key l -> ordered key (insert key x l).
Proof.
  induction l as [|z l IH]; simpl.
  - intros _. split; [intros y []|exact I].
  - intros [Hz Hl].
    destruct (key x <=? key z) eqn:E; simpl.
    + split; [|split; assumption].
      intros y [<-|Hy]; [assumption|].
      eapply leb_trans; [exact E|]. now apply Hz.
    + split; [|now apply IH].
      intros y Hy. apply in_insert in Hy. destruct Hy as [->|Hy].
      * destruct (String.leb_total (key z) (key x)) as [H|H];
          [assumption|congruence].
      * now apply Hz.
Qed.

Lemma sort_ordered (l : list A) : ordered key (sort key l).
Proof.
  induction l as [|x l IH]; simpl; [exact I|].
  now apply insert_ordered.
Qed.

Lemma length_insert (x : A) (l : list A) :
  List.length (insert key x l) = S (List.length l).
Proof.
  induction l as [|z l IH]; simpl; [reflexivity|].
  destruct (key x <=? key z); simpl; congruence.
Qed.

Lemma length_sort (l : list A) : List.length (sort key l) = List.length l.
Proof.
  induction l as [|x l IH]; simpl; [reflexivity|].
  now rewrite length_insert, IH.
Qed.

(** The sort is stable: the items with a given key come out in the order
    they went in. *)
Lemma filter_insert (k : string) (x : A) (l : list A) :
  filter (fun y => key y =? k) (insert key x l)
  = filter (fun y => key y =? k) (x :: l).
Proof.
  induction l as [|z l IH]; [reflexivity|].
  cbn [insert]. destruct (key x <=? key z) eqn:E; [reflexivity|].
  cbn [filter] in *. rewrite IH.
  destruct (key x =? k) eqn:Ex; [|reflexivity].
  destruct (key z =? k) eqn:Ez; [|reflexivity].
  apply String.eqb_eq in Ex, Ez. rewrite Ex, Ez, leb_refl in E. discriminate.
Qed.

Lemma sort_stable (k : string) (l : list A) :
  filter (fun y => key y =? k) (sort key l) = filter (fun y => key y =? k) l.
Proof.
  induction l as [|x l IH]; [reflexivity|].
  cbn [sort]. rewrite filter_insert. cbn [filter]. now rewrite IH.
Qed.

(** [moves.sort(key=...)] followed by [moves[0]] on a non-empty list: an
    item of the list whose key is not after any other. *)
Lemma first_sort (l : list A) :
  l <> [] ->
  exists m, first (sort key l) = inr m /\ In m l /\ least key m l.
Proof.
  intros Hne.
  destruct (sort key l) as [|m rest] eqn:E.
  - apply (f_equal (@List.length A)) in E. rewrite length_sort in E.
    destruct l; [congruence|discriminate].
  - exists m. split; [reflexivity|].
    assert (Hin : forall y, In y l <-> In y (m :: rest))
      by (intros y; rewrite <- E; symmetry; apply in_sort).
    split; [apply Hin; now left|].
    pose proof (sort_ordered l) as Ho. rewrite E in Ho. destruct Ho as [Hm _].
    intros y Hy. apply Hin in Hy. destruct Hy as [<-|Hy].
    + apply leb_refl.
    + now apply Hm.
Qed.

(** Two least items have the same key. *)
Lemma least_key_unique (l : list A) (m m' : A) :
  In m l -> In m' l -> least key m l -> least key m' l -> key m = key m'.
Proof.
  intros Hm Hm' Hl Hl'. apply String.leb_antisym; auto.
Qed.

(** When no two items share a key, the first item of the sorted list
    depends on the items only, not on the order they come in. *)
Lemma key_injective (l : list A) (x y : A) :
  NoDup (map key l) -> In x l -> In y l -> key x = key y -> x = y.
Proof.
  induction l as [|z l IH]; simpl; [intros _ []|].
  intros Hnd Hx Hy Hk. inversion Hnd as [|? ? Hz Hl]; subst.
  destruct Hx as [->|Hx], Hy as [->|Hy]; auto.
  - exfalso. apply Hz. rewrite Hk. now apply in_map.
  - exfalso. apply Hz. rewrite <- Hk. now apply in_map.
Qed.

Lemma first_sort_order_independent (l l' : list A) :
  NoDup (map key l) -> (forall x, In x l <-> In x l') ->
  first (sort key l) = first (sort key l').
Proof.
  intros Hnd Hsame.
  destruct l as [|a l0] eqn:El.
  - destruct l' as [|b l'0]; [reflexivity|].
    exfalso. apply (proj2 (Hsame b)). now left.
  - rewrite <- El in *.
    assert (Hne : l <> []) by (rewrite El; discriminate).
    assert (Hne' : l' <> []).
    { intros ->. apply (proj1 (Hsame a)). rewrite El. now left. }
    destruct (first_sort l Hne) as (m & -> & Hin & Hleast).
    destruct (first_sort l' Hne') as (m' & -> & Hin' & Hleast').
    f_equal. apply (key_injective l); auto.
    + now apply Hsame.
    + apply String.leb_antisym.
      * apply Hleast. now apply Hsame.
      * apply Hleast'. now apply Hsame.
Qed.

End SortFacts.

(** ** [random.choice] *)

Lemma choice_in {A : Type} (randbelow : nat -> nat) (l : list A) :
  l <> [] -> randbelow (List.length l) < List.length l ->
  exists x, choice randbelow l = inr x /\ In x l.
Proof.
  intros Hne Hlt. unfold choice.
  destruct l as [|a l]; [congruence|].
  destruct (nth_error (a :: l) (randbelow (List.length (a :: l)))) as [x|] eqn:E.
  - exists x. split; [reflexivity|]. eapply nth_error_In; eassumption.
  - apply nth_error_None in E. lia.
Qed.

(** ** The parser on the starting position *)

Module StartposFacts.
Import Startpos.

Lemma piece_type_eqb_eq (p q : piece_type) :
  piece_type_eqb p q = true -> p = q.
Proof. destruct p, q; simpl; congruence. Qed.

Lemma promotion_eqb_eq (p q : option piece_type) :
  promotion_eqb p q = true -> p = q.
Proof.
  destruct p as [a|], q as [b|]; simpl; try congruence.
  intros H. f_equal. now apply piece_type_eqb_eq.
Qed.

Lemma move_eqb_eq (m n : move) : move_eqb m n = true -> m = n.
Proof.
  destruct m as [f t p], n as [f' t' p']. unfold move_eqb. simpl.
  rewrite !andb_true_iff. intros [[Hf Ht] Hp].
  apply Nat.eqb_eq in Hf, Ht. apply promotion_eqb_eq in Hp. now subst.
Qed.

Lemma find_move_legal (f t : nat) (promo : option piece_type) (m : move) :
  find_move f t promo = inr m -> In m legal.
Proof.
  unfold find_move.
  destruct (existsb _ legal) eqn:E; [|discriminate].
  intros [= <-]. apply existsb_exists in E. destruct E as (n & Hin & Heq).
  apply move_eqb_eq in Heq. now subst.
Qed.

Lemma find_move_error (f t : nat) (promo : option piece_type) (e : exn) :
  find_move f t promo = inl e -> e = IllegalMoveError.
Proof.
  unfold find_move. destruct (existsb _ legal); [discriminate|congruence].
Qed.

(** A successful parse gives a legal move or the null move, as the
    library documents. *)
Lemma parse_san_legal_or_null (s : string) (m : move) :
  parse_san s = inr m -> In m legal \/ m = null.
Proof.
  unfold parse_san.
  destruct (is_castling_san s); [discriminate|].
  destruct (SAN_REGEX_match s) as [g|].
  2:{ destruct (is_null_san s); [|discriminate]. intros [= <-]. now right. }
  intros H. left.
  assert (Hfilter : forall p l,
    match filter p legal with
    | [] => inl IllegalMoveError
    | [x] => inr x
    | _ :: _ :: _ => inl AmbiguousMoveError
    end = inr l -> In l legal).
  { intros p l. destruct (filter p legal) as [|x [|y r]] eqn:E;
      try discriminate.
    intros [= <-]. apply (proj1 (filter_In p x legal)). rewrite E. now left. }
  destruct (g_piece g); [now apply Hfilter in H|].
  destruct (g_from_file g) as [ff|]; [|now apply Hfilter in H].
  destruct (g_from_rank g) as [fr|]; [|now apply Hfilter in H].
  destruct (find_move _ _ _) as [e|n] eqn:E; [discriminate|].
  destruct (promotion_eqb _ _); [|discriminate].
  injection H as <-. now apply find_move_legal in E.
Qed.

(** [InvalidMoveError] is the error of the strings that [SAN_REGEX] does
    not match (castling and null-move notations apart); a string that it
    matches is parsed or raises one of the other two errors. *)
Lemma parse_san_invalid_iff (s : string) :
  parse_san s = inl InvalidMoveError
  <-> is_castling_san s = false /\ SAN_REGEX_match s = None
      /\ is_null_san s = false.
Proof.
  unfold parse_san. split.
  - destruct (is_castling_san s); [discriminate|].
    destruct (SAN_REGEX_match s) as [g|].
    2:{ destruct (is_null_san s); [discriminate|]. auto. }
    intros H. exfalso.
    assert (Hfilter : forall p,
      match filter p legal with
      | [] => inl IllegalMoveError
      | [x] => inr x
      | _ :: _ :: _ => inl AmbiguousMoveError
      end <> inl InvalidMoveError).
    { intros p. destruct (filter p legal) as [|x [|y r]]; discriminate. }
    destruct (g_piece g); [now apply Hfilter in H|].
    destruct (g_from_file g) as [ff|]; [|now apply Hfilter in H].
    destruct (g_from_rank g) as [fr|]; [|now apply Hfilter in H].
    destruct (find_move _ _ _) as [e|n] eqn:E.
    + apply find_move_error in E. congruence.
    + destruct (promotion_eqb _ _); discriminate.
  - intros (-> & -> & ->). reflexivity.
Qed.

(** The notations used below: [e4] is the pawn step e2-e4, [e5] is well
    formed and illegal, [z9] is malformed, [--] is the null move. *)
Example parse_san_e4 : parse_san "e4" = inr (mv 12 28).
Proof. reflexivity. Qed.

Example parse_san_e5 :
  SAN_REGEX_match "e5" <> None /\ parse_san "e5" = inl IllegalMoveError.
Proof. split; [discriminate|reflexivity]. Qed.

Example parse_san_z9 :
  SAN_REGEX_match "z9" = None /\ parse_san "z9" = inl InvalidMoveError.
Proof. split; reflexivity. Qed.

Example parse_san_null : parse_san "--" = inr null /\ ~ In null legal.
Proof.
  split; [reflexivity|].
  intros H. simpl in H. repeat (destruct H as [H|H]; [discriminate H|]).
  exact H.
Qed.

Example legal_moves_uci :
  map uci legal
  = ["g1h3"; "g1f3"; "b1c3"; "b1a3"; "h2h3"; "g2g3"; "f2f3"; "e2e3";
     "d2d3"; "c2c3"; "b2b3"; "a2a3"; "h2h4"; "g2g4"; "f2f4"; "e2e4";
     "d2d4"; "c2c4"; "b2b4"; "a2a4"].
Proof. reflexivity. Qed.

Example legal_moves_san :
  map san legal
  = ["Nh3"; "Nf3"; "Nc3"; "Na3"; "h3"; "g3"; "f3"; "e3"; "d3"; "c3";
     "b3"; "a3"; "h4"; "g4"; "f4"; "e4"; "d4"; "c4"; "b4"; "a4"].
Proof. reflexivity. Qed.

End StartposFacts.

(** ** The effect monad *)

Lemma bind_ret {A B : Type} (a : A) (f : A -> Eff B) : bind (ret a) f = f a.
Proof. unfold bind, ret. destruct (f a). reflexivity. Qed.

Lemma bind_lift_inr {A B : Type} (a : A) (f : A -> Eff B) :
  bind (lift (inr a)) f = f a.
Proof. apply bind_ret. Qed.

Lemma bind_raise {A B : Type} (e : exn) (f : A -> Eff B) :
  bind (raise e) f = raise e.
Proof. reflexivity. Qed.

Lemma bind_lift_inl {A B : Type} (e : exn) (f : A -> Eff B) :
  bind (lift (inl e)) f = raise e.
Proof. reflexivity. Qed.

Lemma bind_emit {B : Type} (ev : event) (f : unit -> Eff B) :
  bind (emit ev) f = (fst (f tt), ev :: snd (f tt)).
Proof. unfold bind, emit. destruct (f tt). reflexivity. Qed.

Lemma bind_assoc {A B C : Type} (m : Eff A) (f : A -> Eff B) (g : B -> Eff C) :
  bind (bind m f) g = bind m (fun a => bind (f a) g).
Proof.
  destruct m as [[e|a] t]; simpl; [reflexivity|].
  destruct (f a) as [[e|b] t']; simpl; [reflexivity|].
  destruct (g b) as [r t'']. now rewrite app_assoc.
Qed.

(** ** The resolver, step by step *)

Section Resolver.
Context {L : ChessLib} (cfg : Config) (env : Env).
Context (lichess_game : Game) (board : Board L).

Let req : Request := LlamaEngine.request cfg lichess_game board.

(** A failed transport call: the request went out, nothing else happened. *)
Lemma search_post_raises (e : exn) :
  requests_post env req = inl e ->
  LlamaEngine.search cfg env lichess_game board = (inl e, [Post req]).
Proof.
  intros H. unfold LlamaEngine.search, LlamaEngine.post. fold req.
  rewrite bind_assoc, bind_emit, H, bind_lift_inl. reflexivity.
Qed.

Lemma search_status_raises (response : Response) :
  requests_post env req = inr response ->
  ((400 <=? status_code response) && (status_code response <? 600))%Z = true ->
  LlamaEngine.search cfg env lichess_game board = (inl HTTPError, [Post req]).
Proof.
  intros H Hs. unfold LlamaEngine.search, LlamaEngine.post. fold req.
  rewrite bind_assoc, bind_emit, H, bind_lift_inr.
  unfold LlamaEngine.raise_for_status. rewrite Hs, bind_raise. reflexivity.
Qed.

(** After an answer that decodes to [d]: the diagnostics when
    [illegal_moves] is truthy, then the decision. *)
Lemma search_answered (d : list (string * value)) :
  answers env req d ->
  LlamaEngine.search cfg env lichess_game board =
    if truthy (field d "illegal_moves")
    then
      match illegal_moves_message (fullmove_number board)
              (field d "illegal_moves") with
      | inl e => (inl e, [Post req])
      | inr msg =>
          (decision board d,
           [Post req; SendMessage "player" msg; SendMessage "spectator" msg])
      end
    else (decision board d, [Post req]).
Proof.
  intros [response outer payload Hpost Hstatus Hjson Hout Hloads].
  unfold LlamaEngine.search, LlamaEngine.post. fold req.
  rewrite bind_assoc, bind_emit, Hpost, bind_lift_inr.
  unfold LlamaEngine.raise_for_status. rewrite Hstatus, bind_ret.
  unfold LlamaEngine.response_json_. rewrite Hjson, bind_ret.
  rewrite Hout, bind_lift_inr.
  unfold LlamaEngine.loads. rewrite Hloads, bind_ret.
  unfold get. rewrite !bind_lift_inr. fold (field d "move").
  fold (field d "illegal_moves"). fold (field d "resign").
  unfold decision, LlamaEngine.board_parse_san, LlamaEngine.send_message.
  destruct (truthy (field d "illegal_moves")).
  - destruct (illegal_moves_message _ _) as [e|msg]; simpl; [reflexivity|].
    destruct (truthy (field d "resign")); simpl; [reflexivity|].
    destruct (field d "move"); simpl; try reflexivity.
    destruct (parse_san board s); reflexivity.
  - simpl. destruct (truthy (field d "resign")); simpl; [reflexivity|].
    destruct (field d "move"); simpl; try reflexivity.
    destruct (parse_san board s); reflexivity.
Qed.

End Resolver.

(** ** The diagnostic message *)

Lemma strs_map_VStr (l : list string) : strs (map VStr l) = inr l.
Proof.
  induction l as [|s l IH]; simpl; [reflexivity|]. now rewrite IH.
Qed.

Lemma illegal_moves_message_strs (move_count : Z) (l : list string) :
  illegal_moves_message move_count (VList (map VStr l))
  = inr (diagnostic move_count l).
Proof.
  unfold illegal_moves_message, diagnostic, len, join.
  now rewrite strs_map_VStr, length_map.
Qed.

Lemma strs_TypeError (l : list value) (e : exn) : strs l = inl e -> e = TypeError.
Proof.
  induction l as [|v l IH]; simpl; [discriminate|].
  destruct v; try (intros [= <-]; reflexivity).
  destruct (strs l); [|discriminate]. intros [= <-]. now apply IH.
Qed.

(** Building the message can only fail with a [TypeError]. *)
Lemma illegal_moves_message_TypeError (move_count : Z) (v : value) (e : exn) :
  illegal_moves_message move_count v = inl e -> e = TypeError.
Proof.
  unfold illegal_moves_message, len, join.
  destruct v; try (intros [= <-]; reflexivity); try discriminate.
  destruct (strs l) eqn:E; [|discriminate].
  intros [= <-]. now apply strs_TypeError in E.
Qed.

Lemma forallb_is_str (l : list value) :
  forallb is_str l = true -> exists ss, l = map VStr ss.
Proof.
  induction l as [|v l IH]; simpl.
  - intros _. now exists [].
  - destruct v; simpl; try discriminate.
    intros H. destruct (IH H) as [ss ->]. now exists (s :: ss).
Qed.

(** A typed [illegal_moves] that is truthy is a non-empty list of strings. *)
Lemma typed_truthy (d : list (string * value)) :
  illegal_moves_typed d = true ->
  truthy (field d "illegal_moves") = true ->
  exists l, field d "illegal_moves" = VList (map VStr l) /\ l <> [].
Proof.
  unfold illegal_moves_typed.
  destruct (field d "illegal_moves") as [| | | | |l|]; try discriminate.
  intros H Ht. destruct (forallb_is_str l H) as [ss ->].
  exists ss. split; [reflexivity|]. now destruct ss.
Qed.

Lemma truthy_str_list (l : list string) :
  l <> [] -> truthy (VList (map VStr l)) = true.
Proof. destruct l; [congruence|reflexivity]. Qed.

Section ResolverOutcomes.
Context {L : ChessLib} (cfg : Config) (env : Env).
Context (lichess_game : Game) (board : Board L).
Context (d : list (string * value)).
Hypothesis Hanswers :
  answers env (LlamaEngine.request cfg lichess_game board) d.

(** With a non-empty list of strings as [illegal_moves]: both messages,
    then the decision. *)
Lemma search_reports (l : list string) :
  field d "illegal_moves" = VList (map VStr l) -> l <> [] ->
  LlamaEngine.search cfg env lichess_game board =
    (decision board d,
     [Post (LlamaEngine.request cfg lichess_game board);
      SendMessage "player" (diagnostic (fullmove_number board) l);
      SendMessage "spectator" (diagnostic (fullmove_number board) l)]).
Proof.
  intros Him Hne. rewrite (search_answered _ _ _ _ _ Hanswers), Him.
  now rewrite (truthy_str_list l Hne), illegal_moves_message_strs.
Qed.

(** With a falsy [illegal_moves]: the decision alone. *)
Lemma search_silent :
  truthy (field d "illegal_moves") = false ->
  LlamaEngine.search cfg env lichess_game board =
    (decision board d, [Post (LlamaEngine.request cfg lichess_game board)]).
Proof.
  intros Him. now rewrite (search_answered _ _ _ _ _ Hanswers), Him.
Qed.

(** With a typed [illegal_moves], the result is the decision. *)
Lemma search_decision :
  illegal_moves_typed d = true ->
  fst (LlamaEngine.search cfg env lichess_game board) = decision board d.
Proof.
  intros Hty.
  destruct (truthy (field d "illegal_moves")) eqn:Ht.
  - destruct (typed_truthy d Hty Ht) as (l & Him & Hne).
    now rewrite (search_reports l Him Hne).
  - now rewrite (search_silent Ht).
Qed.

End ResolverOutcomes.

Lemma decision_resign {L : ChessLib} (board : Board L)
  (d : list (string * value)) :
  truthy (field d "resign") = true ->
  decision board d = inr (mkPlayResult None None false true).
Proof. unfold decision. now intros ->. Qed.

Lemma exists_answer (status : Z) (inner : list (string * value)) (r : Request) :
  ((400 <=? status) && (status <? 600))%Z = false ->
  answers (Example.endpoint status (VDict inner)) r inner.
Proof.
  intros Hs.
  eapply Answers with (payload := Example.dumps (VDict inner));
    try reflexivity; [exact Hs|].
  simpl. now rewrite String.eqb_refl.
Qed.

(** * The strategies' properties *)

(** ** Local strategies *)

(** C3.  On a board with at least one legal move, [RandomMove],
    [Alphabetical] and [FirstMove] each return a [PlayResult] whose move is
    one of the board's legal moves.  For [RandomMove] the generator's draw
    is below the bound it is given, as [random] guarantees. *)
Theorem local_strategies_pick_legal_move
  (L : ChessLib) (board : Board L) (randbelow : nat -> nat) :
  legal_moves board <> [] ->
  (forall n, 0 < n -> randbelow n < n) ->
  (exists m, RandomMove.search randbelow board
             = inr (mkPlayResult (Some m) None false false)
             /\ In m (legal_moves board))
  /\ (exists m, Alphabetical.search board
                = inr (mkPlayResult (Some m) None false false)
                /\ In m (legal_moves board))
  /\ (exists m, FirstMove.search board
                = inr (mkPlayResult (Some m) None false false)
                /\ In m (legal_moves board)).
Proof.
  intros Hne Hdraw. repeat split.
  - destruct (choice_in randbelow (legal_moves board) Hne) as (m & E & Hin).
    + apply Hdraw. destruct (legal_moves board); [congruence|simpl; lia].
    + exists m. unfold RandomMove.search. now rewrite E.
  - destruct (first_sort (san board) (legal_moves board) Hne) as (m & E & Hin & _).
    exists m. unfold Alphabetical.search. now rewrite E.
  - destruct (first_sort uci (legal_moves board) Hne) as (m & E & Hin & _).
    exists m. unfold FirstMove.search. now rewrite E.
Qed.

Lemma local_strategies_pick_legal_move_witness :
  (exists m, RandomMove.search (L := Startpos.lib) (fun n => n - 1)
               Startpos.starting
             = inr (mkPlayResult (Some m) None false false)
             /\ In m Startpos.legal)
  /\ (exists m, Alphabetical.search (L := Startpos.lib) Startpos.starting
                = inr (mkPlayResult (Some m) None false false)
                /\ In m Startpos.legal)
  /\ (exists m, FirstMove.search (L := Startpos.lib) Startpos.starting
                = inr (mkPlayResult (Some m) None false false)
                /\ In m Startpos.legal).
Proof.
  apply (local_strategies_pick_legal_move Startpos.lib Startpos.starting
           (fun n => n - 1)).
  - simpl. discriminate.
  - intros n Hn. lia.
Defined.

(** C8.  [Alphabetical] returns a legal move whose SAN is not after the SAN
    of any legal move, [FirstMove] one whose UCI notation is not after that
    of any legal move (strings compare as in Python, by code point); any
    other least move has the same notation.  Both are functions of the
    board alone: on identical boards they return the identical result. *)
Theorem sorted_strategies_pick_least_move (L : ChessLib) (board : Board L) :
  (legal_moves board <> [] ->
   (exists m, Alphabetical.search board
              = inr (mkPlayResult (Some m) None false false)
              /\ In m (legal_moves board)
              /\ (forall m', In m' (legal_moves board) ->
                             (san board m <=? san board m') = true)
              /\ (forall m', In m' (legal_moves board) ->
                             (san board m' <=? san board m) = true ->
                             san board m' = san board m))
   /\ (exists m, FirstMove.search board
                 = inr (mkPlayResult (Some m) None false false)
                 /\ In m (legal_moves board)
                 /\ (forall m', In m' (legal_moves board) ->
                                (uci m <=? uci m') = true)
                 /\ (forall m', In m' (legal_moves board) ->
                                (uci m' <=? uci m) = true ->
                                uci m' = uci m)))
  /\ (forall board' : Board L, board' = board ->
        Alphabetical.search board' = Alphabetical.search board
        /\ FirstMove.search board' = FirstMove.search board).
Proof.
  split.
  - intros Hne. split.
    + destruct (first_sort (san board) (legal_moves board) Hne)
        as (m & E & Hin & Hleast).
      exists m. unfold Alphabetical.search. rewrite E.
      repeat split; auto.
      intros m' Hin' Hle. apply String.leb_antisym; auto.
    + destruct (first_sort uci (legal_moves board) Hne)
        as (m & E & Hin & Hleast).
      exists m. unfold FirstMove.search. rewrite E.
      repeat split; auto.
      intros m' Hin' Hle. apply String.leb_antisym; auto.
  - intros board' ->. split; reflexivity.
Qed.

Lemma sorted_strategies_pick_least_move_witness :
  Alphabetical.search (L := Startpos.lib) Startpos.starting
  = inr (mkPlayResult (Some (Startpos.mv 1 16)) None false false)
  /\ FirstMove.search (L := Startpos.lib) Startpos.starting
     = inr (mkPlayResult (Some (Startpos.mv 8 16)) None false false)
  /\ (exists m, Alphabetical.search (L := Startpos.lib) Startpos.starting
                = inr (mkPlayResult (Some m) None false false)
                /\ forall m', In m' Startpos.legal ->
                              (Startpos.san m <=? Startpos.san m') = true).
Proof.
  split; [reflexivity|]. split; [reflexivity|].
  destruct (sorted_strategies_pick_least_move Startpos.lib Startpos.starting)
    as [Hleast _].
  destruct Hleast as [(m & E & _ & Hmin & _) _].
  - simpl. discriminate.
  - exists m. split; [exact E|exact Hmin].
Defined.

(** ** Remote move resolver: the decision *)

(** C1.  When the decoded inner object has a truthy [resign] (in
    particular [true]), the resolver returns
    [PlayResult(None, None, resigned=True)]: resignation and no move,
    whatever the object holds under [move].  The move is not parsed: the
    run is the same with any other parser in the place of
    [board.parse_san].  [illegal_moves] is typed as the inbound interface
    has it (absent, or an array of strings). *)
Theorem resign_takes_precedence
  (L : ChessLib) (cfg : Config) (env : Env) (lichess_game : Game)
  (board : Board L) (d : list (string * value)) :
  answers env (LlamaEngine.request cfg lichess_game board) d ->
  illegal_moves_typed d = true ->
  truthy (field d "resign") = true ->
  fst (LlamaEngine.search cfg env lichess_game board)
  = inr (mkPlayResult None None false true)
  /\ forall p : Board L -> string -> result (Move L),
       LlamaEngine.search (L := with_parser L p) cfg env lichess_game board
       = LlamaEngine.search cfg env lichess_game board.
Proof.
  intros Hans Hty Hres. split.
  - rewrite (search_decision cfg env lichess_game board d Hans Hty).
    now apply decision_resign.
  - intros p.
    rewrite (search_answered cfg env lichess_game board d Hans).
    rewrite (search_answered (L := with_parser L p) cfg env lichess_game
               board d Hans).
    rewrite (decision_resign (L := with_parser L p) board d Hres).
    rewrite (decision_resign board d Hres).
    reflexivity.
Qed.

Lemma resign_takes_precedence_witness :
  fst (LlamaEngine.search (L := Startpos.lib) Example.cfg
         (Example.endpoint 200
            (VDict [("move", VStr "e4"); ("resign", VBool true)]))
         Example.game Startpos.starting)
  = inr (mkPlayResult None None false true).
Proof.
  apply (resign_takes_precedence Startpos.lib Example.cfg
           (Example.endpoint 200
              (VDict [("move", VStr "e4"); ("resign", VBool true)]))
           Example.game Startpos.starting
           [("move", VStr "e4"); ("resign", VBool true)]).
  - apply exists_answer. reflexivity.
  - reflexivity.
  - reflexivity.
Defined.

(** C2.  When [resign] is falsy (false or absent) and the decoded inner
    object has no [move], [move_str] is [None] and [board.parse_san(None)]
    raises [TypeError]: the resolver fails with that missing-field error,
    returns no [PlayResult] and substitutes no move.  This holds whatever
    [illegal_moves] is: building the diagnostic can itself only fail with
    [TypeError]. *)
Theorem missing_move_is_an_error
  (L : ChessLib) (cfg : Config) (env : Env) (lichess_game : Game)
  (board : Board L) (d : list (string * value)) :
  answers env (LlamaEngine.request cfg lichess_game board) d ->
  truthy (field d "resign") = false ->
  assoc "move" d = None ->
  fst (LlamaEngine.search cfg env lichess_game board) = inl TypeError
  /\ ResponseFormatError TypeError = true.
Proof.
  intros Hans Hres Hmove. split; [|reflexivity].
  assert (Hdec : decision board d = inl TypeError).
  { unfold decision, field at 2. now rewrite Hres, Hmove. }
  rewrite (search_answered cfg env lichess_game board d Hans).
  destruct (truthy (field d "illegal_moves")); [|exact Hdec].
  destruct (illegal_moves_message _ _) as [e|msg] eqn:E; [|exact Hdec].
  apply illegal_moves_message_TypeError in E. now subst.
Qed.

Lemma missing_move_is_an_error_witness :
  fst (LlamaEngine.search (L := Startpos.lib) Example.cfg
         (Example.endpoint 200 (VDict [("resign", VBool false)]))
         Example.game Startpos.starting)
  = inl TypeError
  /\ ResponseFormatError TypeError = true.
Proof.
  apply (missing_move_is_an_error Startpos.lib Example.cfg
           (Example.endpoint 200 (VDict [("resign", VBool false)]))
           Example.game Startpos.starting [("resign", VBool false)]).
  - apply exists_answer. reflexivity.
  - reflexivity.
  - reflexivity.
Defined.

(** A rejected move string: the parser's exception is the resolver's. *)
Lemma search_parse_error
  (L : ChessLib) (cfg : Config) (env : Env) (lichess_game : Game)
  (board : Board L) (d : list (string * value)) (s : string) (e : exn) :
  answers env (LlamaEngine.request cfg lichess_game board) d ->
  illegal_moves_typed d = true ->
  truthy (field d "resign") = false ->
  field d "move" = VStr s ->
  parse_san board s = inl e ->
  fst (LlamaEngine.search cfg env lichess_game board) = inl e.
Proof.
  intros Hans Hty Hres Hmove Hparse.
  rewrite (search_decision cfg env lichess_game board d Hans Hty).
  unfold decision. now rewrite Hres, Hmove, Hparse.
Qed.

(** C4, as stated, fails: on the starting position the move string [e5]
    does not parse (no pawn can reach e5), and the resolver fails with
    [IllegalMoveError], not with [InvalidMoveError]. *)
Lemma illegal_san_is_not_InvalidMoveError :
  let d := [("move", VStr "e5")] in
  let outcome :=
    fst (LlamaEngine.search (L := Startpos.lib) Example.cfg
           (Example.endpoint 200 (VDict d)) Example.game Startpos.starting) in
  truthy (field d "resign") = false
  /\ field d "move" = VStr "e5"
  /\ (forall m, Startpos.parse_san "e5" <> inr m)
  /\ outcome = inl IllegalMoveError
  /\ outcome <> inl InvalidMoveError.
Proof.
  cbv zeta. repeat split; try reflexivity; intros; discriminate.
Qed.

(** C4, amended.  When [resign] is falsy and [board.parse_san] rejects the
    [move] string, the resolver fails with the parser's own exception,
    [InvalidMoveError] when the parser finds the notation malformed,
    [IllegalMoveError] or [AmbiguousMoveError] when it finds it illegal or
    ambiguous, and returns no [PlayResult]. *)
Theorem rejected_move_raises_parser_error
  (L : ChessLib) (cfg : Config) (env : Env) (lichess_game : Game)
  (board : Board L) (d : list (string * value)) (s : string) (e : exn) :
  answers env (LlamaEngine.request cfg lichess_game board) d ->
  illegal_moves_typed d = true ->
  truthy (field d "resign") = false ->
  field d "move" = VStr s ->
  parse_san board s = inl e ->
  fst (LlamaEngine.search cfg env lichess_game board) = inl e
  /\ (forall r, fst (LlamaEngine.search cfg env lichess_game board) <> inr r).
Proof.
  intros Hans Hty Hres Hmove Hparse.
  rewrite (search_parse_error L cfg env lichess_game board d s e
             Hans Hty Hres Hmove Hparse).
  split; [reflexivity|discriminate].
Qed.

(** The spec's example: [z9] is malformed. *)
Lemma rejected_move_raises_parser_error_witness :
  fst (LlamaEngine.search (L := Startpos.lib) Example.cfg
         (Example.endpoint 200 (VDict [("move", VStr "z9")]))
         Example.game Startpos.starting)
  = inl InvalidMoveError.
Proof.
  apply (rejected_move_raises_parser_error Startpos.lib Example.cfg
           (Example.endpoint 200 (VDict [("move", VStr "z9")]))
           Example.game Startpos.starting [("move", VStr "z9")] "z9"
           InvalidMoveError).
  - apply exists_answer. reflexivity.
  - reflexivity.
  - reflexivity.
  - reflexivity.
  - reflexivity.
Defined.

(** C10.  When [resign] is falsy and the parser finds the [move] string
    well formed but illegal on the board, it raises [IllegalMoveError] and
    so does the resolver; when it finds the notation malformed, both raise
    [InvalidMoveError], a different exception.  No [PlayResult] is
    returned in either case. *)
Theorem illegal_and_invalid_moves_raise_distinct_errors
  (L : ChessLib) (cfg : Config) (env : Env) (lichess_game : Game)
  (board : Board L) (d : list (string * value)) (s : string) :
  answers env (LlamaEngine.request cfg lichess_game board) d ->
  illegal_moves_typed d = true ->
  truthy (field d "resign") = false ->
  field d "move" = VStr s ->
  (parse_san board s = inl IllegalMoveError ->
   fst (LlamaEngine.search cfg env lichess_game board) = inl IllegalMoveError
   /\ fst (LlamaEngine.search cfg env lichess_game board)
      <> inl InvalidMoveError)
  /\ (parse_san board s = inl InvalidMoveError ->
      fst (LlamaEngine.search cfg env lichess_game board)
      = inl InvalidMoveError
      /\ fst (LlamaEngine.search cfg env lichess_game board)
         <> inl IllegalMoveError).
Proof.
  intros Hans Hty Hres Hmove. split; intros Hparse;
    rewrite (search_parse_error L cfg env lichess_game board d s _
               Hans Hty Hres Hmove Hparse);
    (split; [reflexivity|discriminate]).
Qed.

Lemma illegal_and_invalid_moves_raise_distinct_errors_witness :
  fst (LlamaEngine.search (L := Startpos.lib) Example.cfg
         (Example.endpoint 200 (VDict [("move", VStr "e5")]))
         Example.game Startpos.starting)
  = inl IllegalMoveError.
Proof.
  apply (illegal_and_invalid_moves_raise_distinct_errors Startpos.lib
           Example.cfg (Example.endpoint 200 (VDict [("move", VStr "e5")]))
           Example.game Startpos.starting [("move", VStr "e5")] "e5").
  - apply exists_answer. reflexivity.
  - reflexivity.
  - reflexivity.
  - reflexivity.
  - reflexivity.
Defined.

(** ** Remote move resolver: the request *)

Section Transport.
Context {L : ChessLib} (cfg : Config) (env : Env).
Context (lichess_game : Game) (board : Board L).

Let req : Request := LlamaEngine.request cfg lichess_game board.

(** Every run sends the request, and then either the endpoint's answer
    decodes to a [dict], or the run has failed without another event. *)
Lemma search_failed_or_answered :
  (exists e, LlamaEngine.search cfg env lichess_game board
             = (inl e, [Post req]))
  \/ (exists d, answers env req d).
Proof.
  destruct (requests_post env req) as [e|response] eqn:Hpost.
  { left. exists e. now apply search_post_raises. }
  destruct ((400 <=? status_code response)
            && (status_code response <? 600))%Z eqn:Hstatus.
  { left. exists HTTPError. now apply search_status_raises with response. }
  destruct (response_json response) as [outer|] eqn:Hjson.
  2:{ left. exists JSONDecodeError.
      unfold LlamaEngine.search, LlamaEngine.post. fold req.
      rewrite bind_assoc, bind_emit, Hpost, bind_lift_inr.
      unfold LlamaEngine.raise_for_status. rewrite Hstatus, bind_ret.
      unfold LlamaEngine.response_json_. now rewrite Hjson. }
  destruct (get outer "output") as [e|out] eqn:Hout.
  { left. exists e.
    unfold LlamaEngine.search, LlamaEngine.post. fold req.
    rewrite bind_assoc, bind_emit, Hpost, bind_lift_inr.
    unfold LlamaEngine.raise_for_status. rewrite Hstatus, bind_ret.
    unfold LlamaEngine.response_json_. rewrite Hjson, bind_ret.
    now rewrite Hout. }
  assert (Hloads : forall e,
    LlamaEngine.loads env out = raise e ->
    LlamaEngine.search cfg env lichess_game board = (inl e, [Post req])).
  { intros e He.
    unfold LlamaEngine.search, LlamaEngine.post. fold req.
    rewrite bind_assoc, bind_emit, Hpost, bind_lift_inr.
    unfold LlamaEngine.raise_for_status. rewrite Hstatus, bind_ret.
    unfold LlamaEngine.response_json_. rewrite Hjson, bind_ret.
    now rewrite Hout, bind_lift_inr, He. }
  assert (Hget : forall inner,
    LlamaEngine.loads env out = ret inner ->
    get inner "move" = inl AttributeError ->
    LlamaEngine.search cfg env lichess_game board
    = (inl AttributeError, [Post req])).
  { intros inner Hin Hg.
    unfold LlamaEngine.search, LlamaEngine.post. fold req.
    rewrite bind_assoc, bind_emit, Hpost, bind_lift_inr.
    unfold LlamaEngine.raise_for_status. rewrite Hstatus, bind_ret.
    unfold LlamaEngine.response_json_. rewrite Hjson, bind_ret.
    now rewrite Hout, bind_lift_inr, Hin, bind_ret, Hg. }
  destruct out as [| | | |payload| |];
    try (left; exists TypeError; now apply Hloads).
  destruct (json_loads env payload) as [inner|] eqn:Hdec.
  2:{ left. exists JSONDecodeError. apply Hloads. simpl. now rewrite Hdec. }
  destruct inner as [| | | | | |d];
    try (left; exists AttributeError; eapply Hget;
         [simpl; rewrite Hdec; reflexivity|reflexivity]).
  right. exists d. now apply Answers with response outer payload.
Qed.

(** The trace of a run: the request first, then chat messages only. *)
Lemma search_posts_once :
  posts (snd (LlamaEngine.search cfg env lichess_game board)) = [req].
Proof.
  destruct search_failed_or_answered as [[e ->]|[d Hans]]; [reflexivity|].
  rewrite (search_answered cfg env lichess_game board d Hans). fold req.
  destruct (truthy (field d "illegal_moves")); [|reflexivity].
  destruct (illegal_moves_message _ _); reflexivity.
Qed.

End Transport.

(** C5, as stated, fails for the statuses that are neither 2xx nor an
    error to [raise_for_status]: a response with status 300 whose body
    decodes is handled like a successful one, and the resolver returns a
    move. *)
Lemma status_300_is_not_a_failure :
  let env := Example.endpoint 300 (VDict [("move", VStr "e4")]) in
  let req := LlamaEngine.request (L := Startpos.lib) Example.cfg Example.game
               Startpos.starting in
  (exists response,
     requests_post env req = inr response
     /\ status_code response = 300%Z
     /\ ((200 <=? status_code response) && (status_code response <? 300))%Z
        = false)
  /\ LlamaEngine.search (L := Startpos.lib) Example.cfg env Example.game
       Startpos.starting
     = (inr (mkPlayResult (Some (Startpos.mv 12 28)) None false false),
        [Post req]).
Proof.
  cbv zeta. split; [|reflexivity].
  eexists. split; [reflexivity|]. split; reflexivity.
Qed.

(** C5, amended.  Every invocation issues exactly one POST request.  When
    the transport call fails, by an exception of [requests.post] (a
    timeout, a connection error) or by a 4xx or 5xx status that
    [raise_for_status] rejects, the resolver fails with that exception
    and its trace holds the one request and nothing else: no retry. *)
Theorem one_request_and_no_retry
  (L : ChessLib) (cfg : Config) (env : Env) (lichess_game : Game)
  (board : Board L) :
  posts (snd (LlamaEngine.search cfg env lichess_game board))
  = [LlamaEngine.request cfg lichess_game board]
  /\ (forall e,
        requests_post env (LlamaEngine.request cfg lichess_game board)
        = inl e ->
        LlamaEngine.search cfg env lichess_game board
        = (inl e, [Post (LlamaEngine.request cfg lichess_game board)]))
  /\ (forall response,
        requests_post env (LlamaEngine.request cfg lichess_game board)
        = inr response ->
        (400 <= status_code response < 600)%Z ->
        LlamaEngine.search cfg env lichess_game board
        = (inl HTTPError,
           [Post (LlamaEngine.request cfg lichess_game board)])).
Proof.
  split; [apply search_posts_once|]. split.
  - intros e. apply search_post_raises.
  - intros response Hpost Hs. apply search_status_raises with response; auto.
    apply andb_true_iff. split; [apply Z.leb_le|apply Z.ltb_lt]; lia.
Qed.

Lemma one_request_and_no_retry_witness :
  LlamaEngine.search (L := Startpos.lib) Example.cfg Example.unreachable
    Example.game Startpos.starting
  = (inl Timeout,
     [Post (LlamaEngine.request (L := Startpos.lib) Example.cfg Example.game
              Startpos.starting)])
  /\ LlamaEngine.search (L := Startpos.lib) Example.cfg
       (Example.endpoint 503 (VDict [("move", VStr "e4")]))
       Example.game Startpos.starting
     = (inl HTTPError,
        [Post (LlamaEngine.request (L := Startpos.lib) Example.cfg
                 Example.game Startpos.starting)]).
Proof.
  split.
  - apply (one_request_and_no_retry Startpos.lib Example.cfg
             Example.unreachable Example.game Startpos.starting).
    reflexivity.
  - eapply (one_request_and_no_retry Startpos.lib Example.cfg
              (Example.endpoint 503 (VDict [("move", VStr "e4")]))
              Example.game Startpos.starting).
    + reflexivity.
    + simpl. lia.
Defined.


(** ** Remote move resolver: the diagnostics *)

Lemma contains_refl (s : string) : contains s s.
Proof. exists "", "". simpl. now rewrite append_empty. Qed.

Lemma contains_after (p s sub : string) :
  contains s sub -> contains (p ++ s) sub.
Proof.
  intros (b & a & ->). exists (p ++ b), a. now rewrite append_assoc.
Qed.

Lemma contains_before (s q sub : string) :
  contains s sub -> contains (s ++ q) sub.
Proof.
  intros (b & a & ->). exists b, (a ++ q). now rewrite !append_assoc.
Qed.

Lemma concat_contains (sep x : string) (l : list string) :
  In x l -> contains (String.concat sep l) x.
Proof.
  induction l as [|y l IH]; [intros []|].
  intros [->|Hin].
  - destruct l as [|z l]; simpl; [apply contains_refl|].
    apply contains_before, contains_refl.
  - destruct l as [|z l]; [destruct Hin|].
    change (String.concat sep (y :: z :: l))
      with (y ++ sep ++ String.concat sep (z :: l)).
    do 2 apply contains_after. now apply IH.
Qed.

(** The diagnostic holds the count, the joined list and each move. *)
Lemma diagnostic_contains (move_count : Z) (l : list string) :
  contains (diagnostic move_count l) (str_of_int (Z.of_nat (List.length l)))
  /\ contains (diagnostic move_count l) (String.concat ", " l)
  /\ forall x, In x l -> contains (diagnostic move_count l) x.
Proof.
  unfold diagnostic. repeat split.
  - do 3 apply contains_after. apply contains_before, contains_refl.
  - do 7 apply contains_after. apply contains_refl.
  - intros x Hin. do 7 apply contains_after. now apply concat_contains.
Qed.

(** C6.  When the decoded inner object reports a non-empty list of illegal
    moves, the resolver sends one message to [player] and then the same
    message to [spectator], and nothing else to either; the message is
    [[Move n] tried k illegal move(s):  m1, m2, ...] and so holds the
    count and every reported move.  When [illegal_moves] is empty or
    absent (falsy), no message is sent at all. *)
Theorem illegal_moves_are_reported
  (L : ChessLib) (cfg : Config) (env : Env) (lichess_game : Game)
  (board : Board L) (d : list (string * value)) :
  answers env (LlamaEngine.request cfg lichess_game board) d ->
  (forall l : list string,
     field d "illegal_moves" = VList (map VStr l) -> l <> [] ->
     let message :=
       "[Move " ++ str_of_int (fullmove_number board) ++ "] tried "
       ++ str_of_int (Z.of_nat (List.length l)) ++ " illegal move"
       ++ (if Nat.ltb 1 (List.length l) then "s" else "") ++ ":  "
       ++ String.concat ", " l in
     let trace := snd (LlamaEngine.search cfg env lichess_game board) in
     trace = [Post (LlamaEngine.request cfg lichess_game board);
              SendMessage "player" message;
              SendMessage "spectator" message]
     /\ messages_to "player" trace = [message]
     /\ messages_to "spectator" trace = [message]
     /\ contains message (str_of_int (Z.of_nat (List.length l)))
     /\ contains message (String.concat ", " l)
     /\ (forall x, In x l -> contains message x))
  /\ (truthy (field d "illegal_moves") = false ->
      snd (LlamaEngine.search cfg env lichess_game board)
      = [Post (LlamaEngine.request cfg lichess_game board)]).
Proof.
  intros Hans. split.
  - intros l Him Hne message trace. subst trace.
    rewrite (search_reports cfg env lichess_game board d Hans l Him Hne).
    fold (diagnostic (fullmove_number board) l) in message. subst message.
    split; [reflexivity|]. split; [reflexivity|]. split; [reflexivity|].
    apply diagnostic_contains.
  - intros Him.
    now rewrite (search_silent cfg env lichess_game board d Hans Him).
Qed.

Lemma illegal_moves_are_reported_witness :
  snd (LlamaEngine.search (L := Startpos.lib) Example.cfg
         (Example.endpoint 200
            (VDict [("move", VStr "e4");
                    ("illegal_moves", VList [VStr "Ke2"; VStr "Qd3"])]))
         Example.game Startpos.starting)
  = [Post (LlamaEngine.request (L := Startpos.lib) Example.cfg Example.game
             Startpos.starting);
     SendMessage "player" "[Move 1] tried 2 illegal moves:  Ke2, Qd3";
     SendMessage "spectator" "[Move 1] tried 2 illegal moves:  Ke2, Qd3"]
  /\ snd (LlamaEngine.search (L := Startpos.lib) Example.cfg
            (Example.endpoint 200
               (VDict [("move", VStr "e4"); ("illegal_moves", VList [])]))
            Example.game Startpos.starting)
     = [Post (LlamaEngine.request (L := Startpos.lib) Example.cfg
                Example.game Startpos.starting)].
Proof.
  split.
  - destruct (illegal_moves_are_reported Startpos.lib Example.cfg
                (Example.endpoint 200
                   (VDict [("move", VStr "e4");
                           ("illegal_moves",
                            VList [VStr "Ke2"; VStr "Qd3"])]))
                Example.game Startpos.starting
                [("move", VStr "e4");
                 ("illegal_moves", VList [VStr "Ke2"; VStr "Qd3"])]
                (exists_answer 200 _ _ eq_refl)) as [Hreport _].
    destruct (Hreport ["Ke2"; "Qd3"] eq_refl) as [Htrace _];
      [discriminate|exact Htrace].
  - destruct (illegal_moves_are_reported Startpos.lib Example.cfg
                (Example.endpoint 200
                   (VDict [("move", VStr "e4"); ("illegal_moves", VList [])]))
                Example.game Startpos.starting
                [("move", VStr "e4"); ("illegal_moves", VList [])]
                (exists_answer 200 _ _ eq_refl)) as [_ Hsilent].
    exact (Hsilent eq_refl).
Defined.

(** C9, as stated, fails when the reported list is not made of strings:
    for the non-empty list [["Ke2", null]] the [join] in the f-string
    raises [TypeError] before either [send_message] call, and the run
    ends in that error with the request as its only event. *)
Lemma diagnostics_are_lost_on_a_malformed_list :
  let d := [("move", VStr "e4");
            ("illegal_moves", VList [VStr "Ke2"; VNone])] in
  let run :=
    LlamaEngine.search (L := Startpos.lib) Example.cfg
      (Example.endpoint 200 (VDict d)) Example.game Startpos.starting in
  truthy (field d "illegal_moves") = true
  /\ fst run = inl TypeError
  /\ snd run
     = [Post (LlamaEngine.request (L := Startpos.lib) Example.cfg
                Example.game Startpos.starting)]
  /\ messages_to "player" (snd run) = []
  /\ messages_to "spectator" (snd run) = [].
Proof. cbv zeta. repeat split. Qed.

(** C9, amended.  When the decoded inner object reports a non-empty list
    of illegal moves whose items are all strings and the run then ends in
    an exception, both diagnostic messages are in the trace of the run:
    they were sent before the exception was raised, the exception being
    the last thing that happens. *)
Theorem diagnostics_precede_the_error
  (L : ChessLib) (cfg : Config) (env : Env) (lichess_game : Game)
  (board : Board L) (d : list (string * value)) (l : list string) (e : exn) :
  answers env (LlamaEngine.request cfg lichess_game board) d ->
  field d "illegal_moves" = VList (map VStr l) -> l <> [] ->
  fst (LlamaEngine.search cfg env lichess_game board) = inl e ->
  snd (LlamaEngine.search cfg env lichess_game board)
  = [Post (LlamaEngine.request cfg lichess_game board);
     SendMessage "player" (diagnostic (fullmove_number board) l);
     SendMessage "spectator" (diagnostic (fullmove_number board) l)]
  /\ decision board d = inl e.
Proof.
  intros Hans Him Hne.
  rewrite (search_reports cfg env lichess_game board d Hans l Him Hne).
  simpl. intros ->. split; reflexivity.
Qed.

Lemma diagnostics_precede_the_error_witness :
  snd (LlamaEngine.search (L := Startpos.lib) Example.cfg
         (Example.endpoint 200
            (VDict [("move", VStr "e5");
                    ("illegal_moves", VList [VStr "Ke2"; VStr "Qd3"])]))
         Example.game Startpos.starting)
  = [Post (LlamaEngine.request (L := Startpos.lib) Example.cfg Example.game
             Startpos.starting);
     SendMessage "player" "[Move 1] tried 2 illegal moves:  Ke2, Qd3";
     SendMessage "spectator" "[Move 1] tried 2 illegal moves:  Ke2, Qd3"]
  /\ decision (L := Startpos.lib) Startpos.starting
       [("move", VStr "e5");
        ("illegal_moves", VList [VStr "Ke2"; VStr "Qd3"])]
     = inl IllegalMoveError.
Proof.
  apply (diagnostics_precede_the_error Startpos.lib Example.cfg
           (Example.endpoint 200
              (VDict [("move", VStr "e5");
                      ("illegal_moves", VList [VStr "Ke2"; VStr "Qd3"])]))
           Example.game Startpos.starting
           [("move", VStr "e5");
            ("illegal_moves", VList [VStr "Ke2"; VStr "Qd3"])]
           ["Ke2"; "Qd3"] IllegalMoveError).
  - apply exists_answer. reflexivity.
  - reflexivity.
  - discriminate.
  - reflexivity.
Defined.

(** The request of the example game on the starting position: the rating
    tags, an empty line and an empty main line. *)
Example request_pgn_on_starting_position :
  get (LlamaEngine.request_data (L := Startpos.lib) Example.game
         Startpos.starting) "input"
  = inr (VDict [
      ("pgn", VStr ("[WhiteElo " ++ dquote ++ "1500" ++ dquote ++ "]"
                    ++ newline
                    ++ "[BlackElo " ++ dquote ++ "1623" ++ dquote ++ "]"
                    ++ newline ++ newline));
      ("color", VStr "white");
      ("move_count", VInt 1);
      ("temperature", VFloat float_0_7);
      ("top_p", VFloat float_0_9);
      ("top_k", VInt 1000);
      ("num_beams", VInt 1);
      ("do_sample", VBool true);
      ("use_cache", VBool true)]).
Proof. reflexivity. Qed.

(** * Further properties of the strategies *)

(** ** Local strategies: edge cases and the choice among equal keys *)

Section FirstLeast.
Context {A : Type} (key : A -> string).

(** The first item of the sorted list is the earliest item of the list
    whose key is least: every item before it has a key strictly after
    its own. *)
Lemma first_sort_earliest (l : list A) (m : A) :
  first (sort key l) = inr m ->
  exists before after,
    l = (before ++ m :: after)%list
    /\ (forall x, In x before -> (key x <=? key m) = false)
    /\ (forall x, In x after -> (key m <=? key x) = true).
Proof.
  revert m. induction l as [|x l IH]; intros m; [discriminate|].
  cbn [sort]. destruct (sort key l) as [|m' rest] eqn:E.
  - assert (l = []) as ->.
    { apply (f_equal (@List.length A)) in E. rewrite length_sort in E.
      now destruct l. }
    simpl. intros [= <-]. exists [], []. repeat split; intros y [].
  - cbn [insert]. destruct (key x <=? key m') eqn:Hle.
    + simpl. intros [= <-]. exists [], l. split; [reflexivity|].
      split; [intros y []|].
      intros y Hy. apply (leb_trans _ (key m')); [exact Hle|].
      pose proof (sort_ordered key l) as Ho. rewrite E in Ho.
      destruct Ho as [Hm' _].
      apply (in_sort key) in Hy. rewrite E in Hy. destruct Hy as [<-|Hy].
      * apply leb_refl.
      * now apply Hm'.
    + simpl. intros [= <-].
      destruct (IH m' eq_refl) as (before & after & -> & Hb & Ha).
      exists (x :: before), after. split; [reflexivity|].
      split; [|exact Ha].
      intros y [<-|Hy]; [exact Hle|now apply Hb].
Qed.

Lemma sort_ext (key' : A -> string) (l : list A) :
  (forall x, key' x = key x) -> sort key' l = sort key l.
Proof.
  intros Hk. induction l as [|x l IH]; [reflexivity|].
  cbn [sort]. rewrite IH. generalize (sort key l). intros s.
  induction s as [|y s IHs]; [reflexivity|].
  cbn [insert]. now rewrite !Hk, IHs.
Qed.

(** A draw that reaches a given item. *)
Lemma choice_reaches (l : list A) (m : A) :
  In m l ->
  exists randbelow : nat -> nat,
    (forall n, 0 < n -> randbelow n < n) /\ choice randbelow l = inr m.
Proof.
  intros Hin. destruct (In_nth_error l m Hin) as [i Hi].
  assert (Hlt : i < List.length l) by (apply nth_error_Some; congruence).
  exists (fun n => if Nat.eqb n (List.length l) then i else 0). split.
  - intros n Hn. destruct (Nat.eqb_spec n (List.length l)); lia.
  - unfold choice. destruct l as [|a l]; [destruct Hin|].
    now rewrite Nat.eqb_refl, Hi.
Qed.

End FirstLeast.

Lemma distinct_NoDup (l : list string) : distinct l = true -> NoDup l.
Proof.
  induction l as [|x l IH]; [constructor|].
  cbn [distinct]. rewrite andb_true_iff, negb_true_iff.
  intros [Hx Hl]. constructor; [|now apply IH].
  intros Hin. assert (existsb (String.eqb x) l = true); [|congruence].
  apply existsb_exists. exists x. split; [exact Hin|apply String.eqb_refl].
Qed.

(** X1.  The local strategies fail exactly on a board without legal moves,
    and then with the [IndexError] of [random.choice] or of [moves[0]]:
    each of them raises [IndexError] if and only if the list of legal
    moves is empty, and none raises anything else. *)
Theorem local_strategies_raise_iff_no_legal_move
  (L : ChessLib) (board : Board L) (randbelow : nat -> nat) :
  (forall n, 0 < n -> randbelow n < n) ->
  (legal_moves board = []
   <-> RandomMove.search randbelow board = inl IndexError)
  /\ (legal_moves board = [] <-> Alphabetical.search board = inl IndexError)
  /\ (legal_moves board = [] <-> FirstMove.search board = inl IndexError)
  /\ (forall e,
        RandomMove.search randbelow board = inl e
        \/ Alphabetical.search board = inl e
        \/ FirstMove.search board = inl e ->
        e = IndexError /\ legal_moves board = []).
Proof.
  intros Hdraw.
  assert (Hr : forall e, RandomMove.search randbelow board = inl e ->
                         e = IndexError /\ legal_moves board = []).
  { intros e. unfold RandomMove.search.
    destruct (legal_moves board) as [|a l] eqn:El.
    - simpl. now intros [= <-].
    - destruct (choice_in randbelow (a :: l)) as (m & -> & _);
        [discriminate|apply Hdraw; simpl; lia|discriminate]. }
  assert (Hs : forall key e,
    match first (sort key (legal_moves board)) with
    | inl e' => inl e'
    | inr m => inr (mkPlayResult (Some m) None false false)
    end = inl e -> e = IndexError /\ legal_moves board = []).
  { intros key e. destruct (legal_moves board) as [|a l] eqn:El.
    - simpl. now intros [= <-].
    - destruct (first_sort key (a :: l)) as (m & -> & _); discriminate. }
  repeat split.
  - intros E. unfold RandomMove.search. now rewrite E.
  - intros E. now apply Hr in E.
  - intros E. unfold Alphabetical.search. now rewrite E.
  - intros E. now apply (Hs (san board)) in E.
  - intros E. unfold FirstMove.search. now rewrite E.
  - intros E. now apply (Hs uci) in E.
  - destruct H as [E|[E|E]];
      [apply Hr in E|apply (Hs (san board)) in E|apply (Hs uci) in E];
      tauto.
  - destruct H as [E|[E|E]];
      [apply Hr in E|apply (Hs (san board)) in E|apply (Hs uci) in E];
      tauto.
Qed.

Lemma local_strategies_raise_iff_no_legal_move_witness :
  RandomMove.search (L := Listed.lib) (fun n => n - 1) [] = inl IndexError
  /\ Alphabetical.search (L := Listed.lib) [] = inl IndexError
  /\ FirstMove.search (L := Listed.lib) [] = inl IndexError
  /\ Alphabetical.search (L := Startpos.lib) Startpos.starting
     <> inl IndexError.
Proof.
  destruct (local_strategies_raise_iff_no_legal_move Listed.lib []
              (fun n => n - 1)) as (Hr & Ha & Hf & _).
  { intros n Hn. lia. }
  destruct (local_strategies_raise_iff_no_legal_move Startpos.lib
              Startpos.starting (fun n => n - 1)) as (_ & Hs & _).
  { intros n Hn. lia. }
  split; [now apply Hr|]. split; [now apply Ha|]. split; [now apply Hf|].
  intros E. apply Hs in E. discriminate E.
Defined.

(** X2.  Among legal moves with the same least notation the sorted
    strategies return the one generated first: the move [Alphabetical]
    returns splits the list of legal moves into the moves before it, all
    with a SAN strictly after its own, and the moves after it, none with a
    SAN before its own; likewise [FirstMove] with the UCI notation. *)
Theorem sorted_strategies_pick_earliest_least_move
  (L : ChessLib) (board : Board L) (m : Move L) :
  (Alphabetical.search board = inr (mkPlayResult (Some m) None false false) ->
   exists before after,
     legal_moves board = (before ++ m :: after)%list
     /\ (forall x, In x before -> (san board x <=? san board m) = false)
     /\ (forall x, In x after -> (san board m <=? san board x) = true))
  /\ (FirstMove.search board = inr (mkPlayResult (Some m) None false false) ->
      exists before after,
        legal_moves board = (before ++ m :: after)%list
        /\ (forall x, In x before -> (uci x <=? uci m) = false)
        /\ (forall x, In x after -> (uci m <=? uci x) = true)).
Proof.
  split.
  - unfold Alphabetical.search.
    destruct (first (sort (san board) (legal_moves board))) as [e|m'] eqn:E;
      [discriminate|].
    intros [= <-]. now apply first_sort_earliest.
  - unfold FirstMove.search.
    destruct (first (sort uci (legal_moves board))) as [e|m'] eqn:E;
      [discriminate|].
    intros [= <-]. now apply first_sort_earliest.
Qed.

Lemma sorted_strategies_pick_earliest_least_move_witness :
  exists before after,
    Startpos.legal = (before ++ Startpos.mv 1 16 :: after)%list
    /\ (forall x, In x before ->
                  (Startpos.san x <=? Startpos.san (Startpos.mv 1 16)) = false)
    /\ (forall x, In x after ->
                  (Startpos.san (Startpos.mv 1 16) <=? Startpos.san x) = true).
Proof.
  apply (sorted_strategies_pick_earliest_least_move Startpos.lib
           Startpos.starting (Startpos.mv 1 16)).
  reflexivity.
Defined.

(** X3.  When no two legal moves are written alike, the sorted strategies
    do not depend on the order in which the library generates the moves:
    on two boards with the same legal moves (and the same SAN for them)
    [Alphabetical] returns the same result, and so does [FirstMove]. *)
Theorem sorted_strategies_ignore_generation_order
  (L : ChessLib) (board board' : Board L) :
  (forall m, In m (legal_moves board) <-> In m (legal_moves board')) ->
  (NoDup (map (san board) (legal_moves board)) ->
   (forall m, san board' m = san board m) ->
   Alphabetical.search board' = Alphabetical.search board)
  /\ (NoDup (map uci (legal_moves board)) ->
      FirstMove.search board' = FirstMove.search board).
Proof.
  intros Hsame. split.
  - intros Hnd Hsan. unfold Alphabetical.search.
    rewrite (sort_ext (san board) (san board') _ Hsan).
    now rewrite (first_sort_order_independent (san board)
                   (legal_moves board) (legal_moves board') Hnd Hsame).
  - intros Hnd. unfold FirstMove.search.
    now rewrite (first_sort_order_independent uci
                   (legal_moves board) (legal_moves board') Hnd Hsame).
Qed.

Lemma sorted_strategies_ignore_generation_order_witness :
  Alphabetical.search (L := Listed.lib) (rev Startpos.legal)
  = Alphabetical.search (L := Listed.lib) Startpos.legal
  /\ FirstMove.search (L := Listed.lib) (rev Startpos.legal)
     = FirstMove.search (L := Listed.lib) Startpos.legal.
Proof.
  destruct (sorted_strategies_ignore_generation_order Listed.lib
              Startpos.legal (rev Startpos.legal)) as [Ha Hf].
  { intros m. apply in_rev. }
  split.
  - apply Ha; [apply distinct_NoDup; reflexivity|reflexivity].
  - apply Hf. apply distinct_NoDup. reflexivity.
Defined.

(** X4.  [RandomMove] can return every legal move: for each legal move
    there is a draw of the generator, below the bound it is given, with
    which the strategy returns that move. *)
Theorem random_move_reaches_every_legal_move
  (L : ChessLib) (board : Board L) (m : Move L) :
  In m (legal_moves board) ->
  exists randbelow : nat -> nat,
    (forall n, 0 < n -> randbelow n < n)
    /\ RandomMove.search randbelow board
       = inr (mkPlayResult (Some m) None false false).
Proof.
  intros Hin.
  destruct (choice_reaches (legal_moves board) m Hin) as (r & Hr & E).
  exists r. split; [exact Hr|]. unfold RandomMove.search. now rewrite E.
Qed.

Lemma random_move_reaches_every_legal_move_witness :
  exists randbelow : nat -> nat,
    (forall n, 0 < n -> randbelow n < n)
    /\ RandomMove.search (L := Startpos.lib) randbelow Startpos.starting
       = inr (mkPlayResult (Some (Startpos.mv 12 28)) None false false).
Proof.
  apply (random_move_reaches_every_legal_move Startpos.lib Startpos.starting
           (Startpos.mv 12 28)).
  simpl. tauto.
Defined.

(** ** Remote move resolver: every way a run can go *)

Section Decoding.
Context {L : ChessLib} (cfg : Config) (env : Env).
Context (lichess_game : Game) (board : Board L).
Context (response : Response).

Let req : Request := LlamaEngine.request cfg lichess_game board.

Hypothesis Hpost : requests_post env req = inr response.
Hypothesis Hstatus :
  ((400 <=? status_code response) && (status_code response <? 600))%Z = false.

Ltac pass_status :=
  unfold LlamaEngine.search, LlamaEngine.post; fold req;
  rewrite bind_assoc, bind_emit, Hpost, bind_lift_inr;
  unfold LlamaEngine.raise_for_status; rewrite Hstatus, bind_ret;
  unfold LlamaEngine.response_json_.

Lemma search_body_not_json :
  response_json response = None ->
  LlamaEngine.search cfg env lichess_game board
  = (inl JSONDecodeError, [Post req]).
Proof. intros Hjson. pass_status. now rewrite Hjson. Qed.

Lemma search_output_raises (outer : value) (e : exn) :
  response_json response = Some outer ->
  get outer "output" = inl e ->
  LlamaEngine.search cfg env lichess_game board = (inl e, [Post req]).
Proof. intros Hjson Hout. pass_status. now rewrite Hjson, bind_ret, Hout. Qed.

Lemma search_loads_raises (outer out : value) (e : exn) :
  response_json response = Some outer ->
  get outer "output" = inr out ->
  LlamaEngine.loads env out = raise e ->
  LlamaEngine.search cfg env lichess_game board = (inl e, [Post req]).
Proof.
  intros Hjson Hout Hloads. pass_status.
  now rewrite Hjson, bind_ret, Hout, bind_lift_inr, Hloads.
Qed.

Lemma search_inner_raises (outer out inner : value) (e : exn) :
  response_json response = Some outer ->
  get outer "output" = inr out ->
  LlamaEngine.loads env out = ret inner ->
  get inner "move" = inl e ->
  LlamaEngine.search cfg env lichess_game board = (inl e, [Post req]).
Proof.
  intros Hjson Hout Hloads Hget. pass_status.
  now rewrite Hjson, bind_ret, Hout, bind_lift_inr, Hloads, bind_ret, Hget.
Qed.

End Decoding.

Lemma decision_returns {L : ChessLib} (board : Board L)
  (d : list (string * value)) (r : PlayResult (Move L)) :
  decision board d = inr r ->
  (truthy (field d "resign") = true /\ r = mkPlayResult None None false true)
  \/ (truthy (field d "resign") = false
      /\ exists s m, field d "move" = VStr s /\ parse_san board s = inr m
                     /\ r = mkPlayResult (Some m) None false false).
Proof.
  unfold decision. destruct (truthy (field d "resign")).
  - intros [= <-]. now left.
  - destruct (field d "move") as [| | | |s| |]; try discriminate.
    destruct (parse_san board s) as [e|m] eqn:E; [discriminate|].
    intros [= <-]. right. split; [reflexivity|]. now exists s, m.
Qed.

Lemma strs_not_all_str (l : list value) :
  forallb is_str l = false -> strs l = inl TypeError.
Proof.
  induction l as [|v l IH]; simpl; [discriminate|].
  destruct v; simpl; try reflexivity.
  intros H. now rewrite (IH H).
Qed.

Lemma malformed_message (move_count : Z) (v : value) :
  illegal_moves_malformed v = true ->
  truthy v = true /\ illegal_moves_message move_count v = inl TypeError.
Proof.
  destruct v as [|b|z|f| |l|]; simpl; try discriminate.
  - intros ->. split; reflexivity.
  - intros H. split; [exact H|reflexivity].
  - intros H. split; [exact H|reflexivity].
  - intros H. apply negb_true_iff in H. split.
    + destruct l; [discriminate H|reflexivity].
    + unfold illegal_moves_message, len, join.
      now rewrite (strs_not_all_str l H).
Qed.

(** X5.  When [resign] is falsy and [board.parse_san] accepts the [move]
    string, the resolver returns [PlayResult(move, None)] with the move
    the parser gave: no resignation, no ponder move, no draw offer.  The
    resolver does not check the move against the legal moves itself. *)
Theorem parsed_move_is_returned
  (L : ChessLib) (cfg : Config) (env : Env) (lichess_game : Game)
  (board : Board L) (d : list (string * value)) (s : string) (m : Move L) :
  answers env (LlamaEngine.request cfg lichess_game board) d ->
  illegal_moves_typed d = true ->
  truthy (field d "resign") = false ->
  field d "move" = VStr s ->
  parse_san board s = inr m ->
  fst (LlamaEngine.search cfg env lichess_game board)
  = inr (mkPlayResult (Some m) None false false).
Proof.
  intros Hans Hty Hres Hmove Hparse.
  rewrite (search_decision cfg env lichess_game board d Hans Hty).
  unfold decision. now rewrite Hres, Hmove, Hparse.
Qed.

Lemma parsed_move_is_returned_witness :
  fst (LlamaEngine.search (L := Startpos.lib) Example.cfg
         (Example.endpoint 200 (VDict [("move", VStr "e4")]))
         Example.game Startpos.starting)
  = inr (mkPlayResult (Some (Startpos.mv 12 28)) None false false).
Proof.
  apply (parsed_move_is_returned Startpos.lib Example.cfg
           (Example.endpoint 200 (VDict [("move", VStr "e4")]))
           Example.game Startpos.starting [("move", VStr "e4")] "e4").
  - apply exists_answer. reflexivity.
  - reflexivity.
  - reflexivity.
  - reflexivity.
  - reflexivity.
Defined.

(** X6.  Whatever the endpoint answers, a result the resolver returns is
    one of two: the resignation [PlayResult(None, None, resigned=True)]
    for a truthy [resign], or, for a falsy [resign], the move that
    [board.parse_san] reads in the response's [move] string.  The
    resolver never makes up a move of its own. *)
Theorem returned_result_is_resignation_or_parsed_move
  (L : ChessLib) (cfg : Config) (env : Env) (lichess_game : Game)
  (board : Board L) (r : PlayResult (Move L)) :
  fst (LlamaEngine.search cfg env lichess_game board) = inr r ->
  exists d,
    answers env (LlamaEngine.request cfg lichess_game board) d
    /\ ((truthy (field d "resign") = true
         /\ r = mkPlayResult None None false true)
        \/ (truthy (field d "resign") = false
            /\ exists s m,
                 field d "move" = VStr s /\ parse_san board s = inr m
                 /\ r = mkPlayResult (Some m) None false false)).
Proof.
  destruct (search_failed_or_answered cfg env lichess_game board)
    as [[e ->]|[d Hans]]; [discriminate|].
  rewrite (search_answered cfg env lichess_game board d Hans).
  intros Hr. exists d. split; [exact Hans|].
  apply decision_returns.
  destruct (truthy (field d "illegal_moves")); [|exact Hr].
  destruct (illegal_moves_message _ _); [discriminate Hr|exact Hr].
Qed.

Lemma returned_result_is_resignation_or_parsed_move_witness :
  exists d,
    answers (Example.endpoint 200
               (VDict [("move", VStr "e4"); ("resign", VBool true)]))
      (LlamaEngine.request (L := Startpos.lib) Example.cfg Example.game
         Startpos.starting) d
    /\ truthy (field d "resign") = true.
Proof.
  destruct (returned_result_is_resignation_or_parsed_move Startpos.lib
              Example.cfg
              (Example.endpoint 200
                 (VDict [("move", VStr "e4"); ("resign", VBool true)]))
              Example.game Startpos.starting
              (mkPlayResult None None false true) eq_refl)
    as (d & Hans & [[Hres _]|(_ & s & m & _ & _ & Hr)]).
  - exists d. split; [exact Hans|exact Hres].
  - discriminate Hr.
Defined.

(** X7.  A malformed [illegal_moves] (a number, [True], or a list with an
    item that is not a string) stops the run with a [TypeError] while the
    diagnostic is being built: no message is sent, and [resign] and [move]
    are never looked at, so that even a response that resigns ends in the
    error. *)
Theorem malformed_illegal_moves_raise_first
  (L : ChessLib) (cfg : Config) (env : Env) (lichess_game : Game)
  (board : Board L) (d : list (string * value)) :
  answers env (LlamaEngine.request cfg lichess_game board) d ->
  illegal_moves_malformed (field d "illegal_moves") = true ->
  LlamaEngine.search cfg env lichess_game board
  = (inl TypeError, [Post (LlamaEngine.request cfg lichess_game board)]).
Proof.
  intros Hans Hbad.
  destruct (malformed_message (fullmove_number board) _ Hbad) as [Ht Hm].
  now rewrite (search_answered cfg env lichess_game board d Hans), Ht, Hm.
Qed.

Lemma malformed_illegal_moves_raise_first_witness :
  LlamaEngine.search (L := Startpos.lib) Example.cfg
    (Example.endpoint 200
       (VDict [("resign", VBool true);
               ("illegal_moves", VList [VStr "Ke2"; VNone])]))
    Example.game Startpos.starting
  = (inl TypeError,
     [Post (LlamaEngine.request (L := Startpos.lib) Example.cfg Example.game
              Startpos.starting)]).
Proof.
  apply (malformed_illegal_moves_raise_first Startpos.lib Example.cfg
           (Example.endpoint 200
              (VDict [("resign", VBool true);
                      ("illegal_moves", VList [VStr "Ke2"; VNone])]))
           Example.game Startpos.starting
           [("resign", VBool true);
            ("illegal_moves", VList [VStr "Ke2"; VNone])]).
  - apply exists_answer. reflexivity.
  - reflexivity.
Defined.

(** X8.  The diagnostics are informational: two answers that agree on
    [resign] and on [move] lead to the same result, whatever lists of
    illegal moves (arrays of strings, or none) they report. *)
Theorem diagnostics_do_not_alter_the_result
  (L : ChessLib) (cfg : Config) (env env' : Env) (lichess_game : Game)
  (board : Board L) (d d' : list (string * value)) :
  answers env (LlamaEngine.request cfg lichess_game board) d ->
  answers env' (LlamaEngine.request cfg lichess_game board) d' ->
  illegal_moves_typed d = true ->
  illegal_moves_typed d' = true ->
  field d "resign" = field d' "resign" ->
  field d "move" = field d' "move" ->
  fst (LlamaEngine.search cfg env lichess_game board)
  = fst (LlamaEngine.search cfg env' lichess_game board).
Proof.
  intros Hans Hans' Hty Hty' Hres Hmove.
  rewrite (search_decision cfg env lichess_game board d Hans Hty).
  rewrite (search_decision cfg env' lichess_game board d' Hans' Hty').
  unfold decision. now rewrite Hres, Hmove.
Qed.

Lemma diagnostics_do_not_alter_the_result_witness :
  fst (LlamaEngine.search (L := Startpos.lib) Example.cfg
         (Example.endpoint 200
            (VDict [("move", VStr "e4");
                    ("illegal_moves", VList [VStr "Ke2"; VStr "Qd3"])]))
         Example.game Startpos.starting)
  = fst (LlamaEngine.search (L := Startpos.lib) Example.cfg
           (Example.endpoint 200 (VDict [("move", VStr "e4")]))
           Example.game Startpos.starting).
Proof.
  apply (diagnostics_do_not_alter_the_result Startpos.lib Example.cfg
           (Example.endpoint 200
              (VDict [("move", VStr "e4");
                      ("illegal_moves", VList [VStr "Ke2"; VStr "Qd3"])]))
           (Example.endpoint 200 (VDict [("move", VStr "e4")]))
           Example.game Startpos.starting
           [("move", VStr "e4");
            ("illegal_moves", VList [VStr "Ke2"; VStr "Qd3"])]
           [("move", VStr "e4")]).
  - apply exists_answer. reflexivity.
  - apply exists_answer. reflexivity.
  - reflexivity.
  - reflexivity.
  - reflexivity.
  - reflexivity.
Defined.

(** X9.  The trace of every run has one of two shapes: the request alone,
    or the request followed by one message to [player] and the same
    message to [spectator], in this order.  The second happens only when
    the answer decoded to an object with a truthy [illegal_moves] from
    which the message could be built.  Nothing is sent before the
    request, and no channel gets a message without the other. *)
Theorem trace_is_request_then_both_messages
  (L : ChessLib) (cfg : Config) (env : Env) (lichess_game : Game)
  (board : Board L) :
  snd (LlamaEngine.search cfg env lichess_game board)
  = [Post (LlamaEngine.request cfg lichess_game board)]
  \/ exists d message,
       answers env (LlamaEngine.request cfg lichess_game board) d
       /\ truthy (field d "illegal_moves") = true
       /\ illegal_moves_message (fullmove_number board)
            (field d "illegal_moves") = inr message
       /\ snd (LlamaEngine.search cfg env lichess_game board)
          = [Post (LlamaEngine.request cfg lichess_game board);
             SendMessage "player" message;
             SendMessage "spectator" message].
Proof.
  destruct (search_failed_or_answered cfg env lichess_game board)
    as [[e ->]|[d Hans]]; [now left|].
  rewrite (search_answered cfg env lichess_game board d Hans).
  destruct (truthy (field d "illegal_moves")) eqn:Ht; [|now left].
  destruct (illegal_moves_message _ _) as [e|message] eqn:Hm; [now left|].
  right. exists d, message. repeat split; auto.
Qed.

(** X10.  When the body of the response is an object without an [output]
    key, or with an [output] that is not a string, [json.loads] is handed
    [None] or that value and raises [TypeError]; the run ends there, after
    the one request and without a message. *)
Theorem missing_output_raises_TypeError
  (L : ChessLib) (cfg : Config) (env : Env) (lichess_game : Game)
  (board : Board L) (response : Response) (o : list (string * value)) :
  requests_post env (LlamaEngine.request cfg lichess_game board)
  = inr response ->
  ((400 <=? status_code response) && (status_code response <? 600))%Z
  = false ->
  response_json response = Some (VDict o) ->
  is_str (field o "output") = false ->
  LlamaEngine.search cfg env lichess_game board
  = (inl TypeError, [Post (LlamaEngine.request cfg lichess_game board)]).
Proof.
  intros Hpost Hstatus Hjson Hout.
  apply (search_loads_raises cfg env lichess_game board response Hpost
           Hstatus (VDict o) (field o "output")); auto.
  destruct (field o "output"); try reflexivity. discriminate Hout.
Qed.

Lemma missing_output_raises_TypeError_witness :
  LlamaEngine.search (L := Startpos.lib) Example.cfg
    {| requests_post := fun _ =>
         inr {| status_code := 200;
                response_json := Some (VDict [("error", VStr "busy")]) |};
       json_loads := fun _ => None |}
    Example.game Startpos.starting
  = (inl TypeError,
     [Post (LlamaEngine.request (L := Startpos.lib) Example.cfg Example.game
              Startpos.starting)]).
Proof.
  apply (missing_output_raises_TypeError Startpos.lib Example.cfg
           {| requests_post := fun _ =>
                inr {| status_code := 200;
                       response_json :=
                         Some (VDict [("error", VStr "busy")]) |};
              json_loads := fun _ => None |}
           Example.game Startpos.starting
           {| status_code := 200;
              response_json := Some (VDict [("error", VStr "busy")]) |}
           [("error", VStr "busy")]).
  - reflexivity.
  - reflexivity.
  - reflexivity.
  - reflexivity.
Defined.

(** X11.  A body or a decoded [output] that is JSON but not an object (a
    list, a string, a number, [null]) has no [get]: the run ends in
    [AttributeError], after the one request and without a message. *)
Theorem non_object_raises_AttributeError
  (L : ChessLib) (cfg : Config) (env : Env) (lichess_game : Game)
  (board : Board L) (response : Response) (outer : value) :
  requests_post env (LlamaEngine.request cfg lichess_game board)
  = inr response ->
  ((400 <=? status_code response) && (status_code response <? 600))%Z
  = false ->
  response_json response = Some outer ->
  (is_dict outer = false ->
   LlamaEngine.search cfg env lichess_game board
   = (inl AttributeError,
      [Post (LlamaEngine.request cfg lichess_game board)]))
  /\ (forall payload inner,
        get outer "output" = inr (VStr payload) ->
        json_loads env payload = Some inner ->
        is_dict inner = false ->
        LlamaEngine.search cfg env lichess_game board
        = (inl AttributeError,
           [Post (LlamaEngine.request cfg lichess_game board)])).
Proof.
  intros Hpost Hstatus Hjson. split.
  - intros Hd.
    apply (search_output_raises cfg env lichess_game board response Hpost
             Hstatus outer); auto.
    destruct outer; try reflexivity. discriminate Hd.
  - intros payload inner Hout Hloads Hd.
    apply (search_inner_raises cfg env lichess_game board response Hpost
             Hstatus outer (VStr payload) inner); auto.
    + simpl. now rewrite Hloads.
    + destruct inner; try reflexivity. discriminate Hd.
Qed.

Lemma non_object_raises_AttributeError_witness :
  LlamaEngine.search (L := Startpos.lib) Example.cfg
    (Example.endpoint 200 (VList [VStr "e4"]))
    Example.game Startpos.starting
  = (inl AttributeError,
     [Post (LlamaEngine.request (L := Startpos.lib) Example.cfg Example.game
              Startpos.starting)]).
Proof.
  destruct (non_object_raises_AttributeError Startpos.lib Example.cfg
              (Example.endpoint 200 (VList [VStr "e4"]))
              Example.game Startpos.starting
              {| status_code := 200;
                 response_json :=
                   Some (VDict [("output",
                                 VStr (Example.dumps (VList [VStr "e4"])))]) |}
              (VDict [("output", VStr (Example.dumps (VList [VStr "e4"])))])
              eq_refl eq_refl eq_refl) as [_ Hinner].
  apply (Hinner (Example.dumps (VList [VStr "e4"])) (VList [VStr "e4"]));
    reflexivity.
Defined.

(** X12.  A body that is not JSON, or an [output] string that is not
    JSON, ends the run in [JSONDecodeError], after the one request and
    without a message. *)
Theorem undecodable_response_raises_JSONDecodeError
  (L : ChessLib) (cfg : Config) (env : Env) (lichess_game : Game)
  (board : Board L) (response : Response) :
  requests_post env (LlamaEngine.request cfg lichess_game board)
  = inr response ->
  ((400 <=? status_code response) && (status_code response <? 600))%Z
  = false ->
  (response_json response = None ->
   LlamaEngine.search cfg env lichess_game board
   = (inl JSONDecodeError,
      [Post (LlamaEngine.request cfg lichess_game board)]))
  /\ (forall outer payload,
        response_json response = Some outer ->
        get outer "output" = inr (VStr payload) ->
        json_loads env payload = None ->
        LlamaEngine.search cfg env lichess_game board
        = (inl JSONDecodeError,
           [Post (LlamaEngine.request cfg lichess_game board)])).
Proof.
  intros Hpost Hstatus. split.
  - intros Hjson.
    exact (search_body_not_json cfg env lichess_game board response Hpost
             Hstatus Hjson).
  - intros outer payload Hjson Hout Hloads.
    apply (search_loads_raises cfg env lichess_game board response Hpost
             Hstatus outer (VStr payload)); auto.
    simpl. now rewrite Hloads.
Qed.

Lemma undecodable_response_raises_JSONDecodeError_witness :
  LlamaEngine.search (L := Startpos.lib) Example.cfg
    {| requests_post := fun _ =>
         inr {| status_code := 200; response_json := None |};
       json_loads := fun _ => None |}
    Example.game Startpos.starting
  = (inl JSONDecodeError,
     [Post (LlamaEngine.request (L := Startpos.lib) Example.cfg Example.game
              Startpos.starting)]).
Proof.
  apply (undecodable_response_raises_JSONDecodeError Startpos.lib Example.cfg
           {| requests_post := fun _ =>
                inr {| status_code := 200; response_json := None |};
              json_loads := fun _ => None |}
           Example.game Startpos.starting
           {| status_code := 200; response_json := None |});
    reflexivity.
Defined.

(** X13.  The type of [illegal_moves] is not checked.  A non-empty string
    is reported character by character, and a non-empty object by its
    keys: both messages are sent, with the number of characters (or of
    keys) as the count. *)
Theorem untyped_illegal_moves_are_reported_by_item
  (L : ChessLib) (cfg : Config) (env : Env) (lichess_game : Game)
  (board : Board L) (d : list (string * value)) :
  answers env (LlamaEngine.request cfg lichess_game board) d ->
  (forall s,
     field d "illegal_moves" = VStr s -> s <> "" ->
     snd (LlamaEngine.search cfg env lichess_game board)
     = [Post (LlamaEngine.request cfg lichess_game board);
        SendMessage "player" (diagnostic (fullmove_number board) (chars s));
        SendMessage "spectator"
          (diagnostic (fullmove_number board) (chars s))])
  /\ (forall items,
        field d "illegal_moves" = VDict items -> items <> [] ->
        snd (LlamaEngine.search cfg env lichess_game board)
        = [Post (LlamaEngine.request cfg lichess_game board);
           SendMessage "player"
             (diagnostic (fullmove_number board) (map fst items));
           SendMessage "spectator"
             (diagnostic (fullmove_number board) (map fst items))]).
Proof.
  intros Hans. split.
  - intros s Him Hne.
    rewrite (search_answered cfg env lichess_game board d Hans), Him.
    assert (truthy (VStr s) = true) as ->.
    { simpl. apply negb_true_iff. now apply String.eqb_neq. }
    reflexivity.
  - intros items Him Hne.
    rewrite (search_answered cfg env lichess_game board d Hans), Him.
    assert (truthy (VDict items) = true) as ->
        by (destruct items; [congruence|reflexivity]).
    unfold illegal_moves_message, diagnostic, len, join.
    now rewrite length_map.
Qed.

Lemma untyped_illegal_moves_are_reported_by_item_witness :
  snd (LlamaEngine.search (L := Startpos.lib) Example.cfg
         (Example.endpoint 200
            (VDict [("move", VStr "e4"); ("illegal_moves", VStr "Ke2")]))
         Example.game Startpos.starting)
  = [Post (LlamaEngine.request (L := Startpos.lib) Example.cfg Example.game
             Startpos.starting);
     SendMessage "player" "[Move 1] tried 3 illegal moves:  K, e, 2";
     SendMessage "spectator" "[Move 1] tried 3 illegal moves:  K, e, 2"].
Proof.
  destruct (untyped_illegal_moves_are_reported_by_item Startpos.lib
              Example.cfg
              (Example.endpoint 200
                 (VDict [("move", VStr "e4"); ("illegal_moves", VStr "Ke2")]))
              Example.game Startpos.starting
              [("move", VStr "e4"); ("illegal_moves", VStr "Ke2")]
              (exists_answer 200 _ _ eq_refl)) as [Hstr _].
  apply (Hstr "Ke2" eq_refl). discriminate.
Defined.

(** X14.  The resolver reads the decoded object through the three keys
    [move], [illegal_moves] and [resign] only, with [None] for a key that
    is absent: two answers that agree on these three lead to the same
    run, result and trace.  Other keys, the order of the keys, and the
    difference between an absent key and [null] play no part. *)
Theorem response_is_read_through_three_keys
  (L : ChessLib) (cfg : Config) (env env' : Env) (lichess_game : Game)
  (board : Board L) (d d' : list (string * value)) :
  answers env (LlamaEngine.request cfg lichess_game board) d ->
  answers env' (LlamaEngine.request cfg lichess_game board) d' ->
  field d "move" = field d' "move" ->
  field d "illegal_moves" = field d' "illegal_moves" ->
  field d "resign" = field d' "resign" ->
  LlamaEngine.search cfg env lichess_game board
  = LlamaEngine.search cfg env' lichess_game board.
Proof.
  intros Hans Hans' Hmove Him Hres.
  rewrite (search_answered cfg env lichess_game board d Hans).
  rewrite (search_answered cfg env' lichess_game board d' Hans').
  unfold decision. now rewrite Hmove, Him, Hres.
Qed.

Lemma response_is_read_through_three_keys_witness :
  LlamaEngine.search (L := Startpos.lib) Example.cfg
    (Example.endpoint 200 (VDict [("move", VStr "e4")]))
    Example.game Startpos.starting
  = LlamaEngine.search (L := Startpos.lib) Example.cfg
      (Example.endpoint 200
         (VDict [("resign", VNone); ("elapsed", VInt 12);
                 ("move", VStr "e4")]))
      Example.game Startpos.starting.
Proof.
  apply (response_is_read_through_three_keys Startpos.lib Example.cfg
           (Example.endpoint 200 (VDict [("move", VStr "e4")]))
           (Example.endpoint 200
              (VDict [("resign", VNone); ("elapsed", VInt 12);
                      ("move", VStr "e4")]))
           Example.game Startpos.starting
           [("move", VStr "e4")]
           [("resign", VNone); ("elapsed", VInt 12); ("move", VStr "e4")]).
  - apply exists_answer. reflexivity.
  - apply exists_answer. reflexivity.
  - reflexivity.
  - reflexivity.
  - reflexivity.
Defined.

(** ** The configuration and the request *)

(** X15.  The module is imported exactly when both environment variables
    are set (an empty value counts as set).  The API key is asserted
    first: when it is missing the assertion names it, whether or not the
    endpoint is set.  After the import, every run of the resolver sends
    its one request to the endpoint of the environment, with the key of
    the environment after [Bearer] in the [Authorization] header. *)
Theorem module_config_is_the_environment
  (environ : string -> option string) :
  (forall cfg,
     module_config environ = Imported cfg
     <-> environ "RUNPOD_API_KEY" = Some (RUNPOD_API_KEY cfg)
         /\ environ "RUNPOD_RUNSYNC_ENDPOINT"
            = Some (RUNPOD_RUNSYNC_ENDPOINT cfg))
  /\ (forall message,
        module_config environ = AssertionError message
        <-> (environ "RUNPOD_API_KEY" = None
             /\ message
                = "Please set the RUNPOD_API_KEY environment variable")
            \/ (environ "RUNPOD_API_KEY" <> None
                /\ environ "RUNPOD_RUNSYNC_ENDPOINT" = None
                /\ message
                   = "Please set the RUNPOD_RUNSYNC_ENDPOINT environment variable"))
  /\ (forall cfg (L : ChessLib) (env : Env) (lichess_game : Game)
             (board : Board L),
        module_config environ = Imported cfg ->
        exists r key,
          posts (snd (LlamaEngine.search cfg env lichess_game board)) = [r]
          /\ environ "RUNPOD_RUNSYNC_ENDPOINT" = Some (url r)
          /\ environ "RUNPOD_API_KEY" = Some key
          /\ headers r = [("Authorization", "Bearer " ++ key);
                          ("Content-Type", "application/json")]).
Proof.
  unfold module_config.
  destruct (environ "RUNPOD_API_KEY") as [key|];
    destruct (environ "RUNPOD_RUNSYNC_ENDPOINT") as [endpoint|].
  - split; [|split].
    + intros [k e]. simpl. split.
      * now intros [= -> ->].
      * now intros [[= ->] [= ->]].
    + intros message. split; [discriminate|].
      intros [[H _]|(_ & H & _)]; discriminate H.
    + intros cfg L env g b [= <-].
      exists (LlamaEngine.request (Build_Config key endpoint) g b), key.
      split; [apply search_posts_once|]. repeat split.
  - split; [|split].
    + intros cfg. split; [discriminate|]. intros [_ H]. discriminate H.
    + intros message. split.
      * intros [= <-]. right. repeat split. discriminate.
      * intros [[H _]|(_ & _ & ->)]; [discriminate H|reflexivity].
    + discriminate.
  - split; [|split].
    + intros cfg. split; [discriminate|]. intros [H _]. discriminate H.
    + intros message. split.
      * intros [= <-]. now left.
      * intros [[_ ->]|(H & _)]; [reflexivity|congruence].
    + discriminate.
  - split; [|split].
    + intros cfg. split; [discriminate|]. intros [H _]. discriminate H.
    + intros message. split.
      * intros [= <-]. now left.
      * intros [[_ ->]|(H & _)]; [reflexivity|congruence].
    + discriminate.
Qed.

Lemma module_config_is_the_environment_witness :
  module_config example_environ = Imported Example.cfg
  /\ module_config (fun _ => None)
     = AssertionError "Please set the RUNPOD_API_KEY environment variable".
Proof.
  destruct (module_config_is_the_environment example_environ)
    as (Hload & _ & _).
  destruct (module_config_is_the_environment (fun _ => None))
    as (_ & Hfail & _).
  split.
  - apply Hload. split; reflexivity.
  - apply Hfail. left. split; reflexivity.
Defined.

(** ** The request keeps what it was built from *)

Lemma string_of_uint_digits (d : Decimal.uint) (c : ascii) :
  In c (list_ascii_of_string (NilEmpty.string_of_uint d)) ->
  c <> ascii_of_nat 34.
Proof.
  induction d; simpl; try tauto;
    (intros [<-|H]; [discriminate|now apply IHd]).
Qed.

Lemma str_of_int_digits (z : Z) (c : ascii) :
  In c (list_ascii_of_string (str_of_int z)) -> c <> ascii_of_nat 34.
Proof.
  unfold str_of_int, NilZero.string_of_int, NilZero.string_of_uint.
  destruct (Z.to_int z) as [d|d].
  - destruct d; try apply string_of_uint_digits.
    simpl. intros [<-|[]]. discriminate.
  - simpl. intros [<-|H]; [discriminate|]. revert H.
    destruct d; try apply string_of_uint_digits.
    simpl. intros [<-|[]]. discriminate.
Qed.

Lemma str_of_int_inj (z z' : Z) : str_of_int z = str_of_int z' -> z = z'.
Proof.
  unfold str_of_int. intros E.
  apply DecimalZ.to_int_inj.
  assert (Hnil : forall n, Z.to_int n <> Decimal.Pos Decimal.Nil
                           /\ Z.to_int n <> Decimal.Neg Decimal.Nil).
  { intros [|p|p]; simpl; split; try discriminate;
      intros [= H]; now apply DecimalPos.Unsigned.to_uint_nonnil in H. }
  apply (f_equal NilZero.int_of_string) in E.
  rewrite !NilZero.isi in E by apply Hnil.
  now injection E.
Qed.

(** A text is cut at the first occurrence of a character it is known not
    to hold before. *)
Lemma append_cut (c : ascii) (a a' r r' : string) :
  ~ In c (list_ascii_of_string a) ->
  ~ In c (list_ascii_of_string a') ->
  a ++ String c r = a' ++ String c r' -> a = a' /\ r = r'.
Proof.
  revert a'. induction a as [|x a IH]; intros [|x' a'] Ha Ha'; simpl.
  - now intros [= ->].
  - intros [= -> _]. exfalso. apply Ha'. now left.
  - intros [= -> _]. exfalso. apply Ha. now left.
  - intros [= -> E].
    destruct (IH a') as [-> ->]; auto.
    + intros H. apply Ha. now right.
    + intros H. apply Ha'. now right.
Qed.

Lemma pgn_text_inj {L : ChessLib} (g g' : Game) (b b' : Board L) :
  LlamaEngine.pgn_text g b = LlamaEngine.pgn_text g' b' ->
  rating (white g) = rating (white g')
  /\ rating (black g) = rating (black g')
  /\ strip (mainline_moves b) = strip (mainline_moves b').
Proof.
  unfold LlamaEngine.pgn_text, dquote, newline. cbn [append].
  intros E. injection E as E.
  apply append_cut in E; try (intros H; now apply str_of_int_digits in H).
  destruct E as [Ew E]. cbn [append] in E. injection E as E.
  apply append_cut in E; try (intros H; now apply str_of_int_digits in H).
  destruct E as [Eb E]. cbn [append] in E. injection E as E.
  apply str_of_int_inj in Ew, Eb. auto.
Qed.

(** X16.  The request keeps what it was built from: two requests are
    equal exactly when the configurations, the games (both ratings and
    the colour) and the boards' full-move numbers are equal and the main
    lines are equal up to surrounding whitespace.  Both ratings can be
    read back from the [pgn] text. *)
Theorem request_determines_its_inputs
  (L : ChessLib) (cfg cfg' : Config) (g g' : Game) (b b' : Board L) :
  LlamaEngine.request cfg g b = LlamaEngine.request cfg' g' b'
  <-> cfg = cfg' /\ g = g'
      /\ fullmove_number b = fullmove_number b'
      /\ strip (mainline_moves b) = strip (mainline_moves b').
Proof.
  split.
  - unfold LlamaEngine.request, LlamaEngine.request_headers,
      LlamaEngine.request_data.
    cbv zeta.
    remember (LlamaEngine.pgn_text g b) as p eqn:Hp.
    remember (LlamaEngine.pgn_text g' b') as p' eqn:Hp'.
    intros E. injection E as Eurl Ekey Epgn Ecolor Ecount.
    subst p p'.
    apply pgn_text_inj in Epgn. destruct Epgn as (Ew & Eb & Em).
    destruct cfg, cfg', g as [[w] [k] c], g' as [[w'] [k'] c'].
    simpl in *. subst. auto.
  - intros (-> & -> & Ecount & Em).
    unfold LlamaEngine.request, LlamaEngine.request_data,
      LlamaEngine.pgn_text.
    now rewrite Ecount, Em.
Qed.

(** ** The status code *)

Lemma loads_cases (env : Env) (v : value) :
  (exists e, LlamaEngine.loads env v = raise e)
  \/ (exists inner, LlamaEngine.loads env v = ret inner).
Proof.
  destruct v; simpl; try (left; now eexists).
  destruct (json_loads env s); [right|left]; now eexists.
Qed.

Lemma loads_ext (env env' : Env) (v : value) :
  (forall s, json_loads env s = json_loads env' s) ->
  LlamaEngine.loads env v = LlamaEngine.loads env' v.
Proof. intros H. destruct v; simpl; try reflexivity. now rewrite H. Qed.

(** X17.  Beyond the test for 4xx and 5xx the status code plays no part:
    two responses with the same body whose statuses both pass
    [raise_for_status] (200 and 300, say) lead to the same run, result
    and trace. *)
Theorem passing_status_plays_no_part
  (L : ChessLib) (cfg : Config) (env env' : Env) (lichess_game : Game)
  (board : Board L) (response response' : Response) :
  requests_post env (LlamaEngine.request cfg lichess_game board)
  = inr response ->
  requests_post env' (LlamaEngine.request cfg lichess_game board)
  = inr response' ->
  ((400 <=? status_code response) && (status_code response <? 600))%Z
  = false ->
  ((400 <=? status_code response') && (status_code response' <? 600))%Z
  = false ->
  response_json response = response_json response' ->
  (forall s, json_loads env s = json_loads env' s) ->
  LlamaEngine.search cfg env lichess_game board
  = LlamaEngine.search cfg env' lichess_game board.
Proof.
  intros Hpost Hpost' Hs Hs' Hjson Hloads.
  destruct (response_json response) as [outer|] eqn:Hj.
  2:{ rewrite (search_body_not_json cfg env lichess_game board response
                 Hpost Hs Hj).
      symmetry in Hjson.
      now rewrite (search_body_not_json cfg env' lichess_game board response'
                     Hpost' Hs' Hjson). }
  symmetry in Hjson.
  destruct (get outer "output") as [e|out] eqn:Ho.
  { rewrite (search_output_raises cfg env lichess_game board response
               Hpost Hs outer e Hj Ho).
    now rewrite (search_output_raises cfg env' lichess_game board response'
                   Hpost' Hs' outer e Hjson Ho). }
  pose proof (loads_ext env env' out Hloads) as Hext.
  destruct (loads_cases env out) as [[e He]|[inner Hin]].
  { rewrite (search_loads_raises cfg env lichess_game board response
               Hpost Hs outer out e Hj Ho He).
    rewrite Hext in He.
    now rewrite (search_loads_raises cfg env' lichess_game board response'
                   Hpost' Hs' outer out e Hjson Ho He). }
  assert (Hin' := Hin). rewrite Hext in Hin'.
  destruct (get inner "move") as [e|v] eqn:Hg.
  { rewrite (search_inner_raises cfg env lichess_game board response
               Hpost Hs outer out inner e Hj Ho Hin Hg).
    now rewrite (search_inner_raises cfg env' lichess_game board response'
                   Hpost' Hs' outer out inner e Hjson Ho Hin' Hg). }
  destruct inner as [| | | | | |d]; try discriminate Hg.
  destruct out as [| | | |payload| |]; try discriminate Hin.
  simpl in Hin, Hin'.
  destruct (json_loads env payload) as [x|] eqn:Hd; [|discriminate Hin].
  destruct (json_loads env' payload) as [x'|] eqn:Hd'; [|discriminate Hin'].
  injection Hin as ->. injection Hin' as ->.
  rewrite (search_answered cfg env lichess_game board d
             (Answers env _ d response outer payload Hpost Hs Hj Ho Hd)).
  now rewrite (search_answered cfg env' lichess_game board d
                 (Answers env' _ d response' outer payload Hpost' Hs' Hjson
                    Ho Hd')).
Qed.

Lemma passing_status_plays_no_part_witness :
  LlamaEngine.search (L := Startpos.lib) Example.cfg
    (Example.endpoint 200 (VDict [("move", VStr "e4")]))
    Example.game Startpos.starting
  = LlamaEngine.search (L := Startpos.lib) Example.cfg
      (Example.endpoint 300 (VDict [("move", VStr "e4")]))
      Example.game Startpos.starting.
Proof.
  eapply (passing_status_plays_no_part Startpos.lib Example.cfg
            (Example.endpoint 200 (VDict [("move", VStr "e4")]))
            (Example.endpoint 300 (VDict [("move", VStr "e4")]))
            Example.game Startpos.starting).
  - reflexivity.
  - reflexivity.
  - reflexivity.
  - reflexivity.
  - reflexivity.
  - intros s. reflexivity.
Defined.
